(** * The mesos command-line client (mesos_client.py), embedded in Rocq

    The client is a single-threaded Python 2.6 program.  Every command
    handler is embedded as a computation in a small monad that threads the
    fields of the [MesosCLI] object, can raise a Python exception, and
    records the calls the handler makes to its collaborators (scheduler
    RPCs, logging, signing, tunnel lookup, sub-processes) as a trace of
    events.  The collaborators themselves are not part of the file; they
    are the fields of a [World] record. *)

From Stdlib Require Import String Ascii List ZArith Bool Arith Lia.
Import ListNotations.
Local Open Scope string_scope.
Local Open Scope Z_scope.

(** ** Python string primitives used by the client *)

Module PyStr.

(** [sub.find] index of the first occurrence of [sub] in [s], or -1. *)
Fixpoint find_from (sub s : string) (i : Z) : Z :=
  if String.prefix sub s then i
  else match s with
       | EmptyString => -1
       | String _ s' => find_from sub s' (i + 1)
       end.

Definition find (s sub : string) : Z := find_from sub s 0.

(** [s.split(sep)] for a one-character separator: never empty. *)
Fixpoint split (sep : ascii) (s : string) : list string :=
  match s with
  | EmptyString => [EmptyString]
  | String a s' =>
      if Ascii.eqb a sep then EmptyString :: split sep s'
      else match split sep s' with
           | seg :: rest => String a seg :: rest
           | [] => [String a EmptyString]
           end
  end.

Definition is_space (a : ascii) : bool :=
  let n := nat_of_ascii a in
  ((9 <=? n) && (n <=? 13))%nat || (n =? 32)%nat.

(** [s.split()] : split on runs of white space, no empty pieces. *)
Fixpoint split_ws_aux (cur : string) (s : string) : list string :=
  match s with
  | EmptyString => if String.eqb cur "" then [] else [cur]
  | String a s' =>
      if is_space a
      then (if String.eqb cur "" then split_ws_aux "" s'
            else cur :: split_ws_aux "" s')
      else split_ws_aux (cur ++ String a "") s'
  end.

Definition split_ws (s : string) : list string := split_ws_aux "" s.

(** [sep.join(l)] *)
Fixpoint join (sep : string) (l : list string) : string :=
  match l with
  | [] => ""
  | [x] => x
  | x :: rest => x ++ sep ++ join sep rest
  end.

Fixpoint endswith (s suffix : string) : bool :=
  String.eqb s suffix ||
  match s with
  | EmptyString => false
  | String _ s' => endswith s' suffix
  end.

Definition is_digit (a : ascii) : bool :=
  let n := nat_of_ascii a in ((48 <=? n) && (n <=? 57))%nat.

Definition digit_value (a : ascii) : Z := Z.of_nat (nat_of_ascii a - 48).

Fixpoint digits_value (s : string) (acc : Z) : option Z :=
  match s with
  | EmptyString => Some acc
  | String a s' =>
      if is_digit a then digits_value s' (10 * acc + digit_value a) else None
  end.

Definition unsigned_int (s : string) : option Z :=
  match s with
  | EmptyString => None
  | _ => digits_value s 0
  end.

(** [s.lstrip()], [s.rstrip()] and [s.strip()] *)
Fixpoint lstrip (s : string) : string :=
  match s with
  | EmptyString => EmptyString
  | String a r => if is_space a then lstrip r else s
  end.

Fixpoint rstrip (s : string) : string :=
  match s with
  | EmptyString => EmptyString
  | String a r =>
      match rstrip r with
      | EmptyString => if is_space a then EmptyString else String a EmptyString
      | r' => String a r'
      end
  end.

Definition strip (s : string) : string := rstrip (lstrip s).

(** [int(s)] in base ten: white space around the number is skipped, then
    come an optional sign and at least one digit, with nothing between
    them; [None] stands for [ValueError]. *)
Definition py_int (s : string) : option Z :=
  match strip s with
  | EmptyString => None
  | String a r =>
      if Ascii.eqb a "+" then unsigned_int r
      else if Ascii.eqb a "-" then option_map Z.opp (unsigned_int r)
      else unsigned_int (String a r)
  end.

(** No character of [s] is a colon. *)
Fixpoint colon_free (s : string) : bool :=
  match s with
  | EmptyString => true
  | String a r => negb (Ascii.eqb a ":") && colon_free r
  end.

(** A Python float is kept as the literal it was parsed from: the client
    never computes with the CPU figure, it only passes it on. *)
Record PyFloat := { float_literal : string }.

Fixpoint skip_digits (s : string) : nat * string :=
  match s with
  | String a s' =>
      if is_digit a then let '(n, r) := skip_digits s' in (S n, r) else (O, s)
  | EmptyString => (O, s)
  end.

Definition strip_sign (s : string) : string :=
  match s with
  | EmptyString => s
  | String a r => if Ascii.eqb a "+" || Ascii.eqb a "-" then r else s
  end.

Definition lower (a : ascii) : ascii :=
  let n := nat_of_ascii a in
  if ((65 <=? n) && (n <=? 90))%nat then ascii_of_nat (n + 32) else a.

Fixpoint lowercase (s : string) : string :=
  match s with
  | EmptyString => EmptyString
  | String a s' => String (lower a) (lowercase s')
  end.

Definition is_exponent (s : string) : bool :=
  match s with
  | EmptyString => true
  | String e r =>
      if Ascii.eqb (lower e) "e"
      then let '(n, r') := skip_digits (strip_sign r) in
           (0 <? n)%nat && String.eqb r' ""
      else false
  end.

(** The strings [float(s)] accepts: a signed decimal with an optional
    fraction and exponent, or a signed inf, infinity or nan. *)
Definition is_float_literal (s : string) : bool :=
  let body := strip_sign s in
  let low := lowercase body in
  if String.eqb low "inf" || String.eqb low "infinity" || String.eqb low "nan"
  then true
  else
    let '(n1, r1) := skip_digits body in
    let '(n2, r2) := match r1 with
                     | EmptyString => (O, r1)
                     | String a r =>
                         if Ascii.eqb a "." then skip_digits r else (O, r1)
                     end in
    (0 <? n1 + n2)%nat && is_exponent r2.

(** [float(s)], white space around the literal skipped; [None] stands
    for [ValueError]. *)
Definition py_float (s : string) : option PyFloat :=
  if is_float_literal (strip s) then Some {| float_literal := strip s |}
  else None.

(** Truthiness of a value that is a string or [None]. *)
Definition truthy (s : option string) : bool :=
  match s with
  | Some (String _ _) => true
  | _ => false
  end.

(** [a or b] on such values. *)
Definition py_or (a b : option string) : option string :=
  if truthy a then a else b.

(** [a != b] on such values. *)
Definition differ (a b : option string) : bool :=
  match a, b with
  | Some x, Some y => negb (String.eqb x y)
  | None, None => false
  | _, _ => true
  end.

End PyStr.

(** ** Thrift structures (gen.twitter.mesos.ttypes) *)

(** Modelled from the spec: the generated Thrift module is not among the
    sources.  A response code is the designated OK value or one of the
    failure kinds, which the client only ever turns into its symbolic
    name. *)
Inductive ResponseCode :=
| OK
| Failure (kind : string).

Module ResponseCode.
Definition _VALUES_TO_NAMES (c : ResponseCode) : string :=
  match c with
  | OK => "OK"
  | Failure kind => kind
  end.

Definition eqb (a b : ResponseCode) : bool :=
  match a, b with
  | OK, OK => true
  | Failure x, Failure y => String.eqb x y
  | _, _ => false
  end.
End ResponseCode.

(** Modelled from the spec: the three statuses the client names, and any
    other status of the scheduler under its symbolic name. *)
Inductive ScheduleStatus :=
| PENDING
| STARTING
| RUNNING
| OtherStatus (name : string).

Module ScheduleStatus.
Definition _VALUES_TO_NAMES (s : ScheduleStatus) : string :=
  match s with
  | PENDING => "PENDING"
  | STARTING => "STARTING"
  | RUNNING => "RUNNING"
  | OtherStatus name => name
  end.
End ScheduleStatus.

Definition FINISHED : ScheduleStatus := OtherStatus "FINISHED".
Definition LOST : ScheduleStatus := OtherStatus "LOST".

Inductive UpdateResult := SUCCESS | FAILED | TERMINATE.

Record Identity := { role : string }.

(** [signature] identifies the signing that produced the key: the n-th
    call of the signing capability in this process yields signature n. *)
Record SessionKey := { user : string; signature : nat }.

Record JobConfiguration := { name : string; owner : Identity }.

Record TaskQuery := { query_owner : Identity; jobName : string }.

Record Quota := { numCpus : PyStr.PyFloat; ramMb : Z; diskMb : Z }.

Record TwitterTaskInfo := {
  hdfsPath : string;
  task_numCpus : PyStr.PyFloat;
  task_ramMb : Z;
  task_diskMb : Z;
  shardId : Z;
  maxTaskFailures : Z
}.

(** [task] may be [None]: print_task tests it. *)
Record AssignedTask := {
  task : option TwitterTaskInfo;
  assignedPorts : list Z;
  slaveHost : string
}.

Record ScheduledTask := {
  assignedTask : AssignedTask;
  status : ScheduleStatus;
  failureCount : Z
}.

(** The fields the client reads from the responses of the scheduler; a
    call that does not carry a field leaves it empty. *)
Record Response := {
  responseCode : ResponseCode;
  message : string;
  tasks : list ScheduledTask;
  updateToken : option string;
  quota : option Quota
}.

(** ** Collaborators *)

Inductive Scheduler :=
| LocalSchedulerClient (port : Z) (ssl : bool)
| ZookeeperSchedulerClient (cluster : string) (zk_port : Z)
    (force_notunnel : bool) (ssl : bool) (verbose : bool).

(** The Thrift client handle of a scheduler client. *)
Record Client := { client_of : Scheduler }.

Inductive Request :=
| createJob (job : JobConfiguration) (key : SessionKey)
| startCronJob (role job : string) (key : SessionKey)
| killTasks (query : TaskQuery) (key : SessionKey)
| getTasksStatus (query : TaskQuery)
| startUpdate (job : JobConfiguration) (key : SessionKey)
| finishUpdate (role job : string) (result : UpdateResult)
    (token : option string) (key : SessionKey)
| getQuota (role : string)
| setQuota (role : string) (q : Quota) (key : SessionKey).

Record ProxyConfig := {
  config_cluster : option string;
  hdfs_path : option string;
  config_job : JobConfiguration
}.

Record Options := {
  opt_cluster : option string;
  copy_app_from : option string;
  tunnel_as : option string;
  opt_verbose : bool
}.

Inductive exn :=
| SystemExit (code : Z)
| AssertionError (msg : string)
| ValueError
| UnboundLocalError (var : string)
| AttributeError
| IndexError
| CalledProcessError.

Inductive result (A : Type) :=
| Return (a : A)
| Raise (e : exn).
Arguments Return {A} a.
Arguments Raise {A} e.

(** What the process is, apart from the [MesosCLI] object: everything the
    client asks of the outside. *)
Record World := {
  cluster_exists : string -> bool;
  get_hadoop_uri : option string -> string;
  is_prod : bool;
  is_corp : bool;
  get_tunnel_host : string -> option string;
  get_thrift_client : Scheduler -> option Client;
  scheduler_rpc : Client -> Request -> Response;
  updater_update : string -> string -> option Client -> option string ->
                   SessionKey -> JobConfiguration -> list Z;
  from_thermos : string -> string -> result ProxyConfig;
  from_mesos : string -> string -> result ProxyConfig;
  getuser : string;
  path_exists : string -> bool;
  expanduser : string -> string;
  dirname : string -> string;
  basename : string -> string;
  subprocess_call : list string -> Z
}.

(** ** Log messages and events *)

Inductive level := INFO | ERROR | FATAL.

Record TaskString := {
  ts_resources : option (string * PyStr.PyFloat * Z * Z);
  ts_ports : option (list Z);
  ts_failures : Z * Z
}.

Inductive msg :=
| MsgResponse (code_name message : string)
| MsgLocation (text : string)
| MsgLocalScheduler
| MsgProxying (host : string)
| MsgClusterMismatch (cmd_line_arg_cluster : option string)
| MsgInvalidCluster (cluster : string)
| MsgExpectedArgs (expected got : nat) (line : string)
| MsgDie (text : string)
| MsgCreating (job : string)
| MsgInspecting (job config : string)
| MsgDetectedPackage (path : option string)
| MsgWouldCopy (cluster proxy : option string)
| MsgParsedJob (job : JobConfiguration)
| MsgKilling
| MsgFetching
| MsgActiveTasks (n : nat)
| MsgInactiveTasks (n : nat)
| MsgTask (shard : Z) (status_name host : string) (s : TaskString)
| MsgNoTasks
| MsgUpdating (job : string)
| MsgUpdateReverted (failed_shards : list Z)
| MsgUpdateSuccessful
| MsgCanceling (job : string)
| MsgQuota (role : string) (q : Quota)
| MsgInvalidValue
| MsgCopyVia (user host : string)
| MsgDeleting (dst : string)
| MsgCreatingDir (dst_dir : string)
| MsgCopying (src dst : string).

Inductive event :=
| Log (l : level) (m : msg)
| Rpc (c : Client) (r : Request)
| SignSession (key : SessionKey) (owner : string)
| UpdaterUpdate (role job : string) (c : option Client)
    (token : option string) (key : SessionKey) (j : JobConfiguration)
| LocationProbe
| TunnelLookup (cluster : string)
| NewScheduler (s : Scheduler)
| GetThriftClient (s : Scheduler)
| ConstructScheduler
| LoadConfig (job config : string)
| Subprocess (argv : list string).

(** ** The state of the process and the monad of handlers *)

(** The fields [MesosCLI.__init__] sets, and the number of session keys
    the process has had signed so far. *)
Record MesosCLI := {
  options : Options;
  _cluster : option string;
  _config : option ProxyConfig;
  _client : option Client;
  _proxy : option string;
  _scheduler : option Scheduler;
  signed : nat
}.

(** [MesosCLI(options)] *)
Definition init (opts : Options) : MesosCLI :=
  {| options := opts; _cluster := None; _config := None; _client := None;
     _proxy := None; _scheduler := None; signed := O |}.

Definition set_cluster (v : option string) (s : MesosCLI) : MesosCLI :=
  {| options := options s; _cluster := v; _config := _config s;
     _client := _client s; _proxy := _proxy s; _scheduler := _scheduler s;
     signed := signed s |}.

Definition set_config (v : option ProxyConfig) (s : MesosCLI) : MesosCLI :=
  {| options := options s; _cluster := _cluster s; _config := v;
     _client := _client s; _proxy := _proxy s; _scheduler := _scheduler s;
     signed := signed s |}.

Definition set_client (v : option Client) (s : MesosCLI) : MesosCLI :=
  {| options := options s; _cluster := _cluster s; _config := _config s;
     _client := v; _proxy := _proxy s; _scheduler := _scheduler s;
     signed := signed s |}.

Definition set_proxy_scheduler (p : option string) (sch : option Scheduler)
  (s : MesosCLI) : MesosCLI :=
  {| options := options s; _cluster := _cluster s; _config := _config s;
     _client := _client s; _proxy := p; _scheduler := sch;
     signed := signed s |}.

Definition set_signed (n : nat) (s : MesosCLI) : MesosCLI :=
  {| options := options s; _cluster := _cluster s; _config := _config s;
     _client := _client s; _proxy := _proxy s; _scheduler := _scheduler s;
     signed := n |}.

(** A run: how the computation ended, the object it left, the events it
    emitted, oldest first. *)
Record Run (A : Type) := {
  outcome : result A;
  final : MesosCLI;
  emitted : list event
}.
Arguments outcome {A} r.
Arguments final {A} r.
Arguments emitted {A} r.

Definition M (A : Type) : Type := MesosCLI -> Run A.

Definition ret {A} (a : A) : M A :=
  fun s => {| outcome := Return a; final := s; emitted := [] |}.

Definition raise {A} (e : exn) : M A :=
  fun s => {| outcome := Raise e; final := s; emitted := [] |}.

Definition bind {A B} (m : M A) (f : A -> M B) : M B :=
  fun s =>
    match m s with
    | {| outcome := Return a; final := s1; emitted := t1 |} =>
        match f a s1 with
        | {| outcome := o; final := s2; emitted := t2 |} =>
            {| outcome := o; final := s2; emitted := t1 ++ t2 |}
        end
    | {| outcome := Raise e; final := s1; emitted := t1 |} =>
        {| outcome := Raise e; final := s1; emitted := t1 |}
    end.

Definition emit (e : event) : M unit :=
  fun s => {| outcome := Return tt; final := s; emitted := [e] |}.

Definition get {A} (f : MesosCLI -> A) : M A :=
  fun s => {| outcome := Return (f s); final := s; emitted := [] |}.

Definition modify (f : MesosCLI -> MesosCLI) : M unit :=
  fun s => {| outcome := Return tt; final := f s; emitted := [] |}.

(** Run [m] and hand back how it ended instead of raising. *)
Definition attempt {A} (m : M A) : M (result A) :=
  fun s =>
    match m s with
    | {| outcome := o; final := s1; emitted := t1 |} =>
        {| outcome := Return o; final := s1; emitted := t1 |}
    end.

Declare Scope py_scope.
Delimit Scope py_scope with py.
Notation "x <- m ;; k" := (bind m (fun x => k))
  (at level 61, m at next level, right associativity) : py_scope.
Notation "' p <- m ;; k" := (bind m (fun x => match x with p => k end))
  (at level 61, p pattern, m at next level, right associativity) : py_scope.
Notation "m ;; k" := (bind m (fun _ => k))
  (at level 61, right associativity) : py_scope.
Local Open Scope py_scope.

(** [try: body except ValueError: handler] *)
Definition try_except_ValueError {A} (body : M A) (handler : M A) : M A :=
  r <- attempt body ;;
  match r with
  | Return a => ret a
  | Raise ValueError => handler
  | Raise e => raise e
  end.

(** The same for a body that is a sequence of assignments to the local
    variables [L]: when one of them raises [ValueError] the handler runs
    and the variables bound so far stay bound, the others unbound. *)
Fixpoint try_assignments {L} (body : list (L -> M L)) (handler : M unit)
  (locals : L) : M L :=
  match body with
  | [] => ret locals
  | stmt :: rest =>
      r <- attempt (stmt locals) ;;
      match r with
      | Return locals' => try_assignments rest handler locals'
      | Raise ValueError => handler ;; ret locals
      | Raise e => raise e
      end
  end.

Definition when (b : bool) (m : M unit) : M unit := if b then m else ret tt.

(** [assert cond, msg] *)
Definition assert (cond : bool) (text : string) : M unit :=
  if cond then ret tt else raise (AssertionError text).

(** Attribute access or a method call on a value that may be [None]. *)
Definition attr {A} (v : option A) : M A :=
  match v with
  | Some a => ret a
  | None => raise AttributeError
  end.

(** Reading a local variable that may not have been bound. *)
Definition local {A} (var : string) (v : option A) : M A :=
  match v with
  | Some a => ret a
  | None => raise (UnboundLocalError var)
  end.

(** [l[i]] *)
Definition item {A} (l : list A) (i : nat) : M A :=
  match nth_error l i with
  | Some a => ret a
  | None => raise IndexError
  end.

(** [int(s)] and [float(s)] *)
Definition int (s : string) : M Z :=
  match PyStr.py_int s with
  | Some n => ret n
  | None => raise ValueError
  end.

Definition float (s : string) : M PyStr.PyFloat :=
  match PyStr.py_float s with
  | Some x => ret x
  | None => raise ValueError
  end.

Definition log (l : level) (m : msg) : M unit := emit (Log l m).

(** [_die(msg)] *)
Definition _die {A} (m : msg) : M A :=
  log FATAL m ;; raise (SystemExit 1).

(** ** The client *)

Section Client.

Variable w : World.

(** [clusters.assert_exists(name)]: the registry is not part of the file;
    an unknown name is fatal. *)
Definition assert_exists (cluster_name : string) : M unit :=
  assert (cluster_exists w cluster_name) "Unknown cluster".

(** [Location.is_prod()] and [Location.is_corp()] *)
Definition Location_is_prod : M bool := emit LocationProbe ;; ret (is_prod w).
Definition Location_is_corp : M bool := emit LocationProbe ;; ret (is_corp w).

(** [TunnelHelper.get_tunnel_host(cluster)] *)
Definition TunnelHelper_get_tunnel_host (cluster : string) : M (option string) :=
  emit (TunnelLookup cluster) ;; ret (get_tunnel_host w cluster).

(** [subprocess.call(argv)] and [subprocess.check_call(argv)] *)
Definition subprocess_call_ (argv : list string) : M Z :=
  emit (Subprocess argv) ;; ret (subprocess_call w argv).

Definition subprocess_check_call (argv : list string) : M unit :=
  rc <- subprocess_call_ argv ;;
  if rc =? 0 then ret tt else raise CalledProcessError.

(** *** class MesosCLIHelper *)

Definition acquire_session_key_or_die (owner : string) : M SessionKey :=
  n <- get signed ;;
  let key := {| user := owner; signature := n |} in
  modify (set_signed (S n)) ;;
  emit (SignSession key owner) ;;
  ret key.

Definition ssh_argv (cmd : list string) (host user : string) : list string :=
  ["ssh"; user ++ "@" ++ host; PyStr.join " " cmd].

Definition call (cmd : list string) (host : option string) (user : string) : M Z :=
  match host with
  | Some h => subprocess_call_ (ssh_argv cmd h user)
  | None => subprocess_call_ cmd
  end.

Definition check_call (cmd : list string) (host : option string) (user : string)
  : M unit :=
  match host with
  | Some h => subprocess_check_call (ssh_argv cmd h user)
  | None => subprocess_check_call cmd
  end.

Definition assert_valid_cluster (cluster : option string) : M unit :=
  assert (PyStr.truthy cluster) "Cluster not specified!" ;;
  c <- attr cluster ;;
  if PyStr.find c ":" >? -1 then
    let scluster := PyStr.split ":" c in
    s0 <- item scluster 0 ;;
    when (negb (String.eqb s0 "localhost")) (assert_exists s0) ;;
    if (length scluster =? 2)%nat then
      s1 <- item scluster 1 ;;
      try_except_ValueError
        (int s1 ;; ret tt)
        (_die (MsgInvalidCluster c))
    else ret tt
  else assert_exists c.

Definition get_cluster (cmd_line_arg_cluster config_cluster : option string)
  : M (option string) :=
  when (PyStr.truthy config_cluster && PyStr.truthy cmd_line_arg_cluster
        && PyStr.differ config_cluster cmd_line_arg_cluster)
       (log ERROR (MsgClusterMismatch cmd_line_arg_cluster)) ;;
  let cluster := cmd_line_arg_cluster in
  let cluster := PyStr.py_or cluster config_cluster in
  assert_valid_cluster cluster ;;
  ret cluster.

Definition copy_to_hadoop (user : string) (ssh_proxy_host : option string)
  (src dst : string) : M unit :=
  let abs_src := expanduser w src in
  let dst_dir := dirname w dst in
  assert (path_exists w abs_src)
         ("App file does not exist, cannot continue - " ++ abs_src) ;;
  prod <- Location_is_prod ;;
  let hdfs_src := if prod then abs_src else basename w abs_src in
  match ssh_proxy_host with
  | Some (String a h) =>
      log INFO (MsgCopyVia user (String a h)) ;;
      subprocess_check_call ["scp"; abs_src; user ++ "@" ++ String a h ++ ":"]
  | _ => ret tt
  end ;;
  rc <- call ["hadoop"; "fs"; "-test"; "-e"; dst] ssh_proxy_host user ;;
  (if rc =? 0 then
     log INFO (MsgDeleting dst) ;;
     check_call ["hadoop"; "fs"; "-rm"; dst] ssh_proxy_host user
   else
     rc' <- call ["hadoop"; "fs"; "-test"; "-e"; dst_dir] ssh_proxy_host user ;;
     if rc' =? 0 then ret tt
     else
       log INFO (MsgCreatingDir dst_dir) ;;
       check_call ["hadoop"; "fs"; "-mkdir"; dst_dir] ssh_proxy_host user) ;;
  log INFO (MsgCopying hdfs_src dst) ;;
  check_call ["hadoop"; "fs"; "-put"; hdfs_src; dst] ssh_proxy_host user.

Definition copy_app_to_hadoop (user source_path : string)
  (hdfs_path : option string) (cluster ssh_proxy : option string) : M unit :=
  match hdfs_path with
  | None => raise (AssertionError "No target HDFS path specified")
  | Some path =>
      let hdfs := get_hadoop_uri w cluster in
      let hdfs_uri := hdfs ++ path in
      copy_to_hadoop user ssh_proxy source_path hdfs_uri
  end.

(** *** The decorator requires_arguments *)

Definition requires_arguments (expected_args : list string)
  (fn : list string -> M unit) (line : string) : M unit :=
  let sline := PyStr.split_ws line in
  (if (length sline =? length expected_args)%nat then ret tt
   else _die (MsgExpectedArgs (length expected_args) (length sline) line)) ;;
  fn sline.

(** *** check_and_log_response *)

Definition check_and_log_response (resp : Response) : M unit :=
  log INFO (MsgResponse (ResponseCode._VALUES_TO_NAMES (responseCode resp))
                        (message resp)) ;;
  if negb (ResponseCode.eqb (responseCode resp) OK)
  then raise (SystemExit 1)
  else ret tt.

(** *** class MesosCLI *)

Definition get_scheduler_client (cluster : option string) (verbose : bool)
  : M (option string * Scheduler) :=
  prod <- Location_is_prod ;;
  log INFO (MsgLocation (if prod then "Auto-detected location: prod" else "corp")) ;;
  c <- attr cluster ;;
  if PyStr.find c "localhost:" =? 0 then
    log INFO MsgLocalScheduler ;;
    seg <- item (PyStr.split ":" c) 1 ;;
    port <- int seg ;;
    let sch := LocalSchedulerClient port true in
    emit (NewScheduler sch) ;;
    ret (None, sch)
  else
    '(c, zk_port) <-
      (if PyStr.find c ":" >? -1 then
         match PyStr.split ":" c with
         | [c'; zk_port] => p <- int zk_port ;; ret (c', p)
         | _ => raise ValueError
         end
       else ret (c, 2181)) ;;
    ssh_proxy_host <-
      (if String.eqb c "angrybird-local" then ret None
       else
         corp <- Location_is_corp ;;
         if corp then TunnelHelper_get_tunnel_host c else ret None) ;;
    force_notunnel <-
      match ssh_proxy_host with
      | Some h => log INFO (MsgProxying h) ;; ret false
      | None => ret true
      end ;;
    let sch := ZookeeperSchedulerClient c zk_port force_notunnel true verbose in
    emit (NewScheduler sch) ;;
    ret (ssh_proxy_host, sch).

Definition _construct_scheduler (config : option ProxyConfig) : M unit :=
  emit ConstructScheduler ;;
  opts <- get options ;;
  cluster <- get_cluster (opt_cluster opts)
               match config with
               | Some cfg => config_cluster cfg
               | None => None
               end ;;
  modify (set_cluster cluster) ;;
  '(proxy, sch) <- get_scheduler_client cluster (opt_verbose opts) ;;
  modify (set_proxy_scheduler proxy (Some sch)) ;;
  (* assert self._scheduler: a scheduler client object is never false *)
  emit (GetThriftClient sch) ;;
  let cl := get_thrift_client w sch in
  modify (set_client cl) ;;
  assert match cl with Some _ => true | None => false end
         "Could not construct thrift client.".

Definition client : M (option Client) :=
  cur <- get _client ;;
  match cur with
  | Some _ => ret tt
  | None => cfg <- get _config ;; _construct_scheduler cfg
  end ;;
  get _client.

Definition proxy : M (option string) :=
  cur <- get _proxy ;;
  (if PyStr.truthy cur then ret tt
   else cfg <- get _config ;; _construct_scheduler cfg) ;;
  get _proxy.

Definition cluster : M (option string) :=
  cur <- get _cluster ;;
  (if PyStr.truthy cur then ret tt
   else cfg <- get _config ;; _construct_scheduler cfg) ;;
  get _cluster.

Definition config : M ProxyConfig :=
  cur <- get _config ;;
  match cur with
  | Some cfg => ret cfg
  | None => raise (AssertionError "Config is unset, have you called get_and_set_config?")
  end.

Definition _tunnel_user (job : JobConfiguration) : M string :=
  opts <- get options ;;
  match tunnel_as opts with
  | Some (String a u) => ret (String a u)
  | _ => ret (role (owner job))
  end.

(** [ProxyConfig.from_thermos] or [from_mesos], then [set_job]. *)
Definition get_and_set_config (job config_path : string) : M JobConfiguration :=
  emit (LoadConfig job config_path) ;;
  match (if PyStr.endswith config_path ".thermos"
         then from_thermos w config_path job
         else from_mesos w config_path job) with
  | Return cfg =>
      modify (set_config (Some cfg)) ;;
      ret (config_job cfg)
  | Raise e => raise e
  end.

Definition acquire_session : M SessionKey :=
  acquire_session_key_or_die (getuser w).

(** A call [client.request(...)] on the Thrift client. *)
Definition rpc (c : Client) (r : Request) : M Response :=
  emit (Rpc c r) ;; ret (scheduler_rpc w c r).

(** The block [if self.options.copy_app_from is not None: ...] that
    do_create and do_update share. *)
Definition copy_app (job : JobConfiguration) : M unit :=
  opts <- get options ;;
  match copy_app_from opts with
  | Some src =>
      u <- _tunnel_user job ;;
      cfg <- config ;;
      cl <- cluster ;;
      px <- proxy ;;
      copy_app_to_hadoop u src (hdfs_path cfg) cl px
  | None => ret tt
  end.

Definition do_create_fn (line : list string) : M unit :=
  match line with
  | [job_name; config_path] =>
      job <- get_and_set_config job_name config_path ;;
      copy_app job ;;
      sessionkey <- acquire_session ;;
      log INFO (MsgCreating (name job)) ;;
      oc <- client ;;
      c <- attr oc ;;
      resp <- rpc c (createJob job sessionkey) ;;
      check_and_log_response resp
  | _ => raise ValueError
  end.

Definition do_create : string -> M unit :=
  requires_arguments ["job"; "config"] do_create_fn.

Definition do_inspect_fn (line : list string) : M unit :=
  match line with
  | [job_name; config_path] =>
      log INFO (MsgInspecting job_name config_path) ;;
      job <- get_and_set_config job_name config_path ;;
      opts <- get options ;;
      match copy_app_from opts with
      | Some _ =>
          cfg <- config ;;
          if PyStr.truthy (hdfs_path cfg) then
            cfg1 <- config ;;
            log INFO (MsgDetectedPackage (hdfs_path cfg1)) ;;
            cl <- cluster ;;
            px <- proxy ;;
            log INFO (MsgWouldCopy cl px)
          else ret tt
      | None => ret tt
      end ;;
      sessionkey <- acquire_session ;;
      log INFO (MsgParsedJob job)
  | _ => raise ValueError
  end.

Definition do_inspect : string -> M unit :=
  requires_arguments ["job"; "config"] do_inspect_fn.

Definition do_start_cron_fn (line : list string) : M unit :=
  match line with
  | [role; job] =>
      oc <- client ;;
      c <- attr oc ;;
      key <- acquire_session ;;
      resp <- rpc c (startCronJob role job key) ;;
      check_and_log_response resp
  | _ => raise ValueError
  end.

Definition do_start_cron : string -> M unit :=
  requires_arguments ["role"; "job"] do_start_cron_fn.

Definition make_query (role job : string) : TaskQuery :=
  {| query_owner := {| role := role |}; jobName := job |}.

Definition do_kill_fn (line : list string) : M unit :=
  log INFO MsgKilling ;;
  match line with
  | [role; job] =>
      let query := make_query role job in
      oc <- client ;;
      c <- attr oc ;;
      key <- acquire_session ;;
      resp <- rpc c (killTasks query key) ;;
      check_and_log_response resp
  | _ => raise ValueError
  end.

Definition do_kill : string -> M unit :=
  requires_arguments ["role"; "job"] do_kill_fn.

Definition ACTIVE_STATES : list ScheduleStatus := [PENDING; STARTING; RUNNING].

Definition status_eqb (a b : ScheduleStatus) : bool :=
  match a, b with
  | PENDING, PENDING | STARTING, STARTING | RUNNING, RUNNING => true
  | OtherStatus x, OtherStatus y => String.eqb x y
  | _, _ => false
  end.

Definition is_active (t : ScheduledTask) : bool :=
  existsb (status_eqb (status t)) ACTIVE_STATES.

Definition print_task (scheduled_task : ScheduledTask) : M TaskString :=
  let assigned_task := assignedTask scheduled_task in
  let taskInfo := task assigned_task in
  let resources :=
    match taskInfo with
    | Some ti => Some (hdfsPath ti, task_numCpus ti, task_ramMb ti, task_diskMb ti)
    | None => None
    end in
  let ports :=
    match assignedPorts assigned_task with
    | [] => None
    | p => Some p
    end in
  ti <- attr taskInfo ;;
  ret {| ts_resources := resources; ts_ports := ports;
         ts_failures := (failureCount scheduled_task, maxTaskFailures ti) |}.

Fixpoint print_tasks (tasks : list ScheduledTask) : M unit :=
  match tasks with
  | [] => ret tt
  | t :: rest =>
      taskString <- print_task t ;;
      ti <- attr (task (assignedTask t)) ;;
      log INFO (MsgTask (shardId ti)
                        (ScheduleStatus._VALUES_TO_NAMES (status t))
                        (slaveHost (assignedTask t))
                        taskString) ;;
      print_tasks rest
  end.

Definition do_status_fn (line : list string) : M unit :=
  log INFO MsgFetching ;;
  match line with
  | [role; job] =>
      let query := make_query role job in
      oc <- client ;;
      c <- attr oc ;;
      resp <- rpc c (getTasksStatus query) ;;
      check_and_log_response resp ;;
      match tasks resp with
      | _ :: _ =>
          let active_tasks := filter is_active (tasks resp) in
          log INFO (MsgActiveTasks (length active_tasks)) ;;
          print_tasks active_tasks ;;
          let inactive_tasks := filter (fun x => negb (is_active x)) (tasks resp) in
          log INFO (MsgInactiveTasks (length inactive_tasks)) ;;
          print_tasks inactive_tasks
      | [] => log INFO MsgNoTasks
      end
  | _ => raise ValueError
  end.

Definition do_status : string -> M unit :=
  requires_arguments ["role"; "job"] do_status_fn.

(** [Updater(role, job, client, time, token, key).update(job)]: the
    shard-by-shard updater is a collaborator; it returns the set of
    shards that failed. *)
Definition Updater_update (role job : string) (c : option Client)
  (token : option string) (key : SessionKey) (j : JobConfiguration)
  : M (list Z) :=
  emit (UpdaterUpdate role job c token key j) ;;
  ret (updater_update w role job c token key j).

Definition do_update_fn (line : list string) : M unit :=
  match line with
  | [job_name; config_path] =>
      job <- get_and_set_config job_name config_path ;;
      copy_app job ;;
      sessionkey <- acquire_session ;;
      log INFO (MsgUpdating (name job)) ;;
      oc <- client ;;
      c <- attr oc ;;
      resp <- rpc c (startUpdate job sessionkey) ;;
      check_and_log_response resp ;;
      oc' <- client ;;
      failed_shards <- Updater_update (role (owner job)) (name job) oc'
                         (updateToken resp) sessionkey job ;;
      match failed_shards with
      | _ :: _ => log INFO (MsgUpdateReverted failed_shards)
      | [] => log INFO MsgUpdateSuccessful
      end ;;
      oc'' <- client ;;
      c'' <- attr oc'' ;;
      resp' <- rpc c'' (finishUpdate (role (owner job)) (name job)
                          match failed_shards with
                          | _ :: _ => FAILED
                          | [] => SUCCESS
                          end
                          (updateToken resp) sessionkey) ;;
      check_and_log_response resp'
  | _ => raise ValueError
  end.

Definition do_update : string -> M unit :=
  requires_arguments ["job"; "config"] do_update_fn.

Definition do_cancel_update_fn (line : list string) : M unit :=
  match line with
  | [role; job] =>
      log INFO (MsgCanceling job) ;;
      oc <- client ;;
      c <- attr oc ;;
      key <- acquire_session ;;
      resp <- rpc c (finishUpdate role job TERMINATE None key) ;;
      check_and_log_response resp
  | _ => raise ValueError
  end.

Definition do_cancel_update : string -> M unit :=
  requires_arguments ["role"; "job"] do_cancel_update_fn.

Definition do_get_quota_fn (line : list string) : M unit :=
  role <- item line 0 ;;
  oc <- client ;;
  c <- attr oc ;;
  resp <- rpc c (getQuota role) ;;
  let quota := quota resp in
  q <- attr quota ;;
  log INFO (MsgQuota role q).

Definition do_get_quota : string -> M unit :=
  requires_arguments ["role"] do_get_quota_fn.

(** The local variables the try block of do_set_quota assigns. *)
Record quota_locals := {
  cpu : option PyStr.PyFloat;
  ram_mb : option Z;
  disk_mb : option Z
}.

Definition do_set_quota_fn (line : list string) : M unit :=
  match line with
  | [role; cpu_str; ram_mb_str; disk_mb_str] =>
      vars <- try_assignments
                [ (fun l => x <- float cpu_str ;;
                     ret {| cpu := Some x; ram_mb := ram_mb l; disk_mb := disk_mb l |});
                  (fun l => n <- int ram_mb_str ;;
                     ret {| cpu := cpu l; ram_mb := Some n; disk_mb := disk_mb l |});
                  (fun l => n <- int disk_mb_str ;;
                     ret {| cpu := cpu l; ram_mb := ram_mb l; disk_mb := Some n |}) ]
                (log ERROR MsgInvalidValue)
                {| cpu := None; ram_mb := None; disk_mb := None |} ;;
      oc <- client ;;
      c <- attr oc ;;
      cpu_v <- local "cpu" (cpu vars) ;;
      ram_v <- local "ram_mb" (ram_mb vars) ;;
      disk_v <- local "disk_mb" (disk_mb vars) ;;
      let q := {| numCpus := cpu_v; ramMb := ram_v; diskMb := disk_v |} in
      key <- acquire_session ;;
      resp <- rpc c (setQuota role q key) ;;
      check_and_log_response resp
  | _ => raise ValueError
  end.

Definition do_set_quota : string -> M unit :=
  requires_arguments ["role"; "cpu"; "ramMb"; "diskMb"] do_set_quota_fn.

(** [cmd.Cmd.parseline]: the line is stripped; an empty line, and a line
    that starts with an exclamation mark (there is no do_shell), name no
    command; a leading question mark stands for help; the command is the
    leading run of identifier characters, the argument the stripped
    rest. *)
Definition is_identchar (a : ascii) : bool :=
  let n := nat_of_ascii a in
  ((48 <=? n) && (n <=? 57) || (65 <=? n) && (n <=? 90)
   || (97 <=? n) && (n <=? 122) || (n =? 95))%nat.

Fixpoint ident_span (s : string) : string * string :=
  match s with
  | EmptyString => (EmptyString, EmptyString)
  | String a r =>
      if is_identchar a
      then let '(c, rest) := ident_span r in (String a c, rest)
      else (EmptyString, s)
  end.

Definition parseline (line : string) : option (string * string) :=
  match PyStr.strip line with
  | EmptyString => None
  | String a r =>
      if Ascii.eqb a "!" then None
      else
        let line' := if Ascii.eqb a "?" then "help " ++ r else String a r in
        let '(cmd, rest) := ident_span line' in
        Some (cmd, PyStr.strip rest)
  end.

(** [cmd.Cmd.onecmd]: the handler do_<cmd> is called on the argument; an
    empty line, help and a command without a handler only print. *)
Definition onecmd (line : string) : M unit :=
  match parseline line with
  | None => ret tt
  | Some (cmd, arg) =>
      if String.eqb cmd "create" then do_create arg
      else if String.eqb cmd "inspect" then do_inspect arg
      else if String.eqb cmd "start_cron" then do_start_cron arg
      else if String.eqb cmd "kill" then do_kill arg
      else if String.eqb cmd "status" then do_status arg
      else if String.eqb cmd "update" then do_update arg
      else if String.eqb cmd "cancel_update" then do_cancel_update arg
      else if String.eqb cmd "get_quota" then do_get_quota arg
      else if String.eqb cmd "set_quota" then do_set_quota arg
      else ret tt
  end.

(** [main(args, options)], from the construction of the object on. *)
Definition main_body (args : list string) : M unit :=
  match args with
  | [] => raise (SystemExit 1)
  | _ =>
      r <- attempt (onecmd (PyStr.join " " args)) ;;
      match r with
      | Return _ => ret tt
      | Raise (AssertionError text) => _die (MsgDie text)
      | Raise e => raise e
      end
  end.

Definition main (args : list string) (opts : Options) : Run unit :=
  main_body args (init opts).

End Client.

(** The exit status of the process: that of [sys.exit], 1 for an
    exception nobody caught, 0 otherwise. *)
Definition exit_status {A} (r : Run A) : Z :=
  match outcome r with
  | Return _ => 0
  | Raise (SystemExit code) => code
  | Raise _ => 1
  end.

(** ** What is read off a trace *)

(** The calls that leave the client for the scheduler or the updater. *)
Definition is_call (e : event) : bool :=
  match e with
  | Rpc _ _ => true
  | UpdaterUpdate _ _ _ _ _ _ => true
  | _ => false
  end.

Definition calls (t : list event) : list event := filter is_call t.

(** The events of resolving the cluster, loading the configuration and
    copying the application: everything that is neither a call, nor a
    signing, nor the line the validator logs. *)
Definition is_plumbing (e : event) : bool :=
  match e with
  | Log _ (MsgResponse _ _) => false
  | Log _ _ => true
  | Rpc _ _ => false
  | SignSession _ _ => false
  | UpdaterUpdate _ _ _ _ _ _ => false
  | _ => true
  end.

Definition is_sign (e : event) : bool :=
  match e with
  | SignSession _ _ => true
  | _ => false
  end.

(** How many session keys were signed. *)
Definition sign_count (t : list event) : nat := length (filter is_sign t).

Definition is_construct (e : event) : bool :=
  match e with
  | ConstructScheduler => true
  | _ => false
  end.

(** How many times _construct_scheduler was entered. *)
Definition constructions (t : list event) : nat := length (filter is_construct t).

(** The line check_and_log_response logs. *)
Definition is_validation (e : event) : bool :=
  match e with
  | Log INFO (MsgResponse _ _) => true
  | _ => false
  end.

Definition is_discovery (e : event) : bool :=
  match e with
  | TunnelLookup _ => true
  | NewScheduler (ZookeeperSchedulerClient _ _ _ _ _) => true
  | _ => false
  end.

Definition returns {A} (r : Run A) : bool :=
  match outcome r with
  | Return _ => true
  | Raise _ => false
  end.

(** The session keys a request carries. *)
Definition request_key (r : Request) : option SessionKey :=
  match r with
  | createJob _ k | startCronJob _ _ k | killTasks _ k | startUpdate _ k
  | finishUpdate _ _ _ _ k | setQuota _ _ k => Some k
  | getTasksStatus _ | getQuota _ => None
  end.

Definition key_eqb (a b : SessionKey) : bool :=
  String.eqb (user a) (user b) && Nat.eqb (signature a) (signature b).

(** The session key a call hands to the scheduler or to the updater. *)
Definition call_key (e : event) : option SessionKey :=
  match e with
  | Rpc _ r => request_key r
  | UpdaterUpdate _ _ _ _ k _ => Some k
  | _ => None
  end.

(** The trace read in order: every key is signed for [owner], and every
    call that carries a key carries one of [seen] or one signed earlier
    in the trace. *)
Fixpoint signed_before (owner : string) (seen : list SessionKey)
  (t : list event) : bool :=
  match t with
  | [] => true
  | SignSession k o :: t' =>
      String.eqb o owner && signed_before owner (k :: seen) t'
  | e :: t' =>
      match call_key e with
      | Some k => existsb (key_eqb k) seen && signed_before owner seen t'
      | None => signed_before owner seen t'
      end
  end.

(** Neither a signing nor a call that carries a key. *)
Definition keyless (e : event) : bool :=
  match e with
  | SignSession _ _ => false
  | _ => match call_key e with
         | Some _ => false
         | None => true
         end
  end.

(** Not a signing, and carrying no key other than [key]. *)
Definition passes_only (key : SessionKey) (e : event) : bool :=
  match e with
  | SignSession _ _ => false
  | _ => match call_key e with
         | Some k => key_eqb k key
         | None => true
         end
  end.

(** The signings and the calls of a trace, in order. *)
Definition signings_and_calls (t : list event) : list event :=
  filter (fun e => is_sign e || is_call e) t.

(** The task carries its task information, as print_tasks needs it. *)
Definition has_task_info (t : ScheduledTask) : Prop :=
  task (assignedTask t) <> None.

(** The report of the status command as the specification words it: the
    line of one task, the ACTIVE block, then the INACTIVE block, or the
    no-tasks message. *)
Definition task_line (t : ScheduledTask) : list event :=
  match task (assignedTask t) with
  | Some ti =>
      [Log INFO
         (MsgTask (shardId ti) (ScheduleStatus._VALUES_TO_NAMES (status t))
            (slaveHost (assignedTask t))
            {| ts_resources := Some (hdfsPath ti, task_numCpus ti, task_ramMb ti,
                                     task_diskMb ti);
               ts_ports := match assignedPorts (assignedTask t) with
                           | [] => None
                           | p => Some p
                           end;
               ts_failures := (failureCount t, maxTaskFailures ti) |})]
  | None => []
  end.

Definition active_status (s : ScheduleStatus) : bool :=
  match s with
  | PENDING | STARTING | RUNNING => true
  | OtherStatus _ => false
  end.

Definition report_spec (ts : list ScheduledTask) : list event :=
  match ts with
  | [] => [Log INFO MsgNoTasks]
  | _ =>
      let active := filter (fun t => active_status (status t)) ts in
      let inactive := filter (fun t => negb (active_status (status t))) ts in
      Log INFO (MsgActiveTasks (length active)) :: flat_map task_line active
      ++ Log INFO (MsgInactiveTasks (length inactive)) :: flat_map task_line inactive
  end.

(** The calls of one update, as the specification words the saga: the
    start-update call, then, when it was answered OK, the updater once
    and the finish-update call once, with the token of the start
    response, SUCCESS when no shard failed and FAILED otherwise. *)
Definition update_calls (w : World) (c : Client) (job : JobConfiguration)
  (key : SessionKey) : list event :=
  let resp := scheduler_rpc w c (startUpdate job key) in
  let failed_shards :=
    updater_update w (role (owner job)) (name job) (Some c) (updateToken resp)
      key job in
  Rpc c (startUpdate job key) ::
  match responseCode resp with
  | OK =>
      [UpdaterUpdate (role (owner job)) (name job) (Some c) (updateToken resp)
         key job;
       Rpc c (finishUpdate (role (owner job)) (name job)
                match failed_shards with
                | [] => SUCCESS
                | _ :: _ => FAILED
                end
                (updateToken resp) key)]
  | Failure _ => []
  end.

(** Every event [m] emits satisfies [p], from whatever object it starts. *)
Definition emits_only (p : event -> bool) {A} (m : M A) : Prop :=
  forall s, forallb p (emitted (m s)) = true.

Definition no_sign (e : event) : bool := negb (is_sign e).

Definition no_validation (e : event) : bool := negb (is_validation e).

(** Whatever object [m] starts from, the keys its calls carry were signed
    for [owner] earlier in the same run. *)
Definition mints_what_it_passes (owner : string) {A} (m : M A) : Prop :=
  forall s, signed_before owner [] (emitted (m s)) = true.

(** [m] has [n] session keys signed when it returns, and never more. *)
Definition signs (n : nat) {A} (m : M A) : Prop :=
  forall s, (sign_count (emitted (m s)) <= n)%nat /\
            (returns (m s) = true -> sign_count (emitted (m s)) = n).

(** ** Predicates for the further properties *)

(** What assert_valid_cluster accepts, read off its branches: a non-empty
    string; without a colon a registered name; with one, a first segment
    that is localhost or registered and, when there are exactly two
    segments, a second one that int accepts. *)
Definition valid_cluster (w : World) (cluster : option string) : bool :=
  match cluster with
  | Some c =>
      PyStr.truthy cluster &&
      match PyStr.split ":" c with
      | [] => false
      | [name] => cluster_exists w name
      | [name; port] =>
          (String.eqb name "localhost" || cluster_exists w name) &&
          match PyStr.py_int port with
          | Some _ => true
          | None => false
          end
      | name :: _ => String.eqb name "localhost" || cluster_exists w name
      end
  | None => false
  end.

Definition is_error_log (e : event) : bool :=
  match e with
  | Log ERROR _ => true
  | _ => false
  end.

Definition is_tunnel_lookup (e : event) : bool :=
  match e with
  | TunnelLookup _ => true
  | _ => false
  end.

Definition is_subprocess (e : event) : bool :=
  match e with
  | Subprocess _ => true
  | _ => false
  end.

(** The events of resolving the cluster and loading the configuration:
    the plumbing without the sub-processes. *)
Definition is_resolution (e : event) : bool :=
  is_plumbing e && negb (is_subprocess e).

(** A sub-process that goes through the tunnel host as user@host: an scp
    to it or an ssh on it. *)
Definition through_tunnel (user host : string) (e : event) : bool :=
  match e with
  | Subprocess ["scp"; _; target] => String.eqb target (user ++ "@" ++ host ++ ":")
  | Subprocess ("ssh" :: d :: _) => String.eqb d (user ++ "@" ++ host)
  | Subprocess _ => false
  | _ => true
  end.

(** A sub-process run on this machine: a hadoop command. *)
Definition run_locally (e : event) : bool :=
  match e with
  | Subprocess ("hadoop" :: _) => true
  | Subprocess _ => false
  | _ => true
  end.

(** What a dry run may emit: resolution events and the signing. *)
Definition dry_run (e : event) : bool := is_resolution e || is_sign e.

Definition no_subprocess (e : event) : bool := negb (is_subprocess e).

(** [m] leaves the object as it found it. *)
Definition stateless {A} (m : M A) : Prop := forall s, final (m s) = s.

(** The fields _construct_scheduler fills are consistent: a cached client
    comes with a cached cluster. *)
Definition coherent (s : MesosCLI) : Prop :=
  _client s <> None -> PyStr.truthy (_cluster s) = true.

Definition is_assertion {A} (r : result A) : bool :=
  match r with
  | Raise (AssertionError _) => true
  | _ => false
  end.

Definition has_info (t : ScheduledTask) : bool :=
  match task (assignedTask t) with
  | Some _ => true
  | None => false
  end.

(** The tasks before the first one without task information. *)
Fixpoint printable (ts : list ScheduledTask) : list ScheduledTask :=
  match ts with
  | [] => []
  | t :: rest => if has_info t then t :: printable rest else []
  end.

(** ** A concrete world, for running the handlers *)

Definition reply (code : ResponseCode) : Response :=
  {| responseCode := code; message := "done"; tasks := [];
     updateToken := None; quota := None |}.

Definition demo_info (shard : Z) : TwitterTaskInfo :=
  {| hdfsPath := "/apps/hello"; task_numCpus := {| PyStr.float_literal := "1.0" |};
     task_ramMb := 512; task_diskMb := 1024; shardId := shard;
     maxTaskFailures := 3 |}.

Definition demo_task (shard : Z) (st : ScheduleStatus) : ScheduledTask :=
  {| assignedTask := {| task := Some (demo_info shard); assignedPorts := [];
                        slaveHost := "slave1" |};
     status := st; failureCount := 0 |}.

Definition demo_quota : Quota :=
  {| numCpus := {| PyStr.float_literal := "8.0" |}; ramMb := 4096; diskMb := 10240 |}.

(** A scheduler that answers every call with [code]. *)
Definition demo_scheduler (code : ResponseCode) (c : Client) (r : Request)
  : Response :=
  {| responseCode := code; message := "done";
     tasks := match r with
              | getTasksStatus _ =>
                  [demo_task 0 PENDING; demo_task 1 FINISHED;
                   demo_task 2 RUNNING; demo_task 3 LOST]
              | _ => []
              end;
     updateToken := match r with
                    | startUpdate _ _ => Some "token-7"
                    | _ => None
                    end;
     quota := match r with
              | getQuota _ => Some demo_quota
              | _ => None
              end |}.

Definition demo_config (path job : string) : result ProxyConfig :=
  Return {| config_cluster := None; hdfs_path := Some "/apps/hello.zip";
            config_job := {| name := job; owner := {| role := "eng" |} |} |}.

Definition demo_world_with (sch : Client -> Request -> Response)
  (failed_shards : list Z) : World :=
  {| cluster_exists := fun n => String.eqb n "smf1";
     get_hadoop_uri := fun _ => "hdfs://namenode";
     is_prod := false;
     is_corp := true;
     get_tunnel_host := fun _ => Some "tunnel1";
     get_thrift_client := fun s => Some {| client_of := s |};
     scheduler_rpc := sch;
     updater_update := fun _ _ _ _ _ _ => failed_shards;
     from_thermos := demo_config;
     from_mesos := demo_config;
     getuser := "alice";
     path_exists := fun _ => true;
     expanduser := fun p => p;
     dirname := fun p => p;
     basename := fun p => p;
     subprocess_call := fun _ => 0 |}.

Definition demo_world (code : ResponseCode) (failed_shards : list Z) : World :=
  demo_world_with (demo_scheduler code) failed_shards.

(** A task whose assignedTask.task is None. *)
Definition bare_task (st : ScheduleStatus) : ScheduledTask :=
  {| assignedTask := {| task := None; assignedPorts := [];
                        slaveHost := "slave1" |};
     status := st; failureCount := 0 |}.

(** A scheduler that answers OK, the status query with three tasks of
    which the second lacks its task information. *)
Definition partial_scheduler (c : Client) (r : Request) : Response :=
  {| responseCode := OK; message := "done";
     tasks := match r with
              | getTasksStatus _ =>
                  [demo_task 0 RUNNING; bare_task PENDING; demo_task 2 FINISHED]
              | _ => []
              end;
     updateToken := None; quota := None |}.

Definition partial_world : World := demo_world_with partial_scheduler [].

(** A scheduler that refuses every call and fills in nothing else. *)
Definition refusing_world : World :=
  demo_world_with (fun _ _ => reply (Failure "ERROR")) [].

Definition demo_options (cluster : string) : Options :=
  {| opt_cluster := Some cluster; copy_app_from := None; tunnel_as := None;
     opt_verbose := false |}.

(** The same with --copy_app_from. *)
Definition demo_copy_options (cluster : string) : Options :=
  {| opt_cluster := Some cluster; copy_app_from := Some "hello.zip";
     tunnel_as := None; opt_verbose := false |}.

Example split_two : PyStr.split ":" "smf1:2181" = ["smf1"; "2181"].
Proof. reflexivity. Qed.

Example split_three : PyStr.split ":" "name:1234:extra" = ["name"; "1234"; "extra"].
Proof. reflexivity. Qed.

Example split_trailing : PyStr.split ":" "a:" = ["a"; ""].
Proof. reflexivity. Qed.

Example find_colon : PyStr.find "smf1:2181" ":" = 4.
Proof. reflexivity. Qed.

Example find_missing : PyStr.find "smf1" ":" = -1.
Proof. reflexivity. Qed.

Example split_ws_line : PyStr.split_ws "eng  abc 4096 10240 " = ["eng"; "abc"; "4096"; "10240"].
Proof. reflexivity. Qed.

Example int_ok : PyStr.py_int "4096" = Some 4096.
Proof. reflexivity. Qed.

(** White space around the digits is skipped, as int does; between the
    sign and the digits it is refused. *)
Example int_padded : PyStr.py_int " 2181" = Some 2181.
Proof. reflexivity. Qed.

Example int_padded_both : PyStr.py_int "  -12  " = Some (-12).
Proof. reflexivity. Qed.

Example int_sign_apart : PyStr.py_int "- 12" = None.
Proof. reflexivity. Qed.

Example int_blank : PyStr.py_int "  " = None.
Proof. reflexivity. Qed.

Example float_padded :
  PyStr.py_float " 8.0 " = Some {| PyStr.float_literal := "8.0" |}.
Proof. reflexivity. Qed.

(** The command is the leading run of identifier characters. *)
Example parseline_words : parseline "status eng hello" = Some ("status", "eng hello").
Proof. reflexivity. Qed.

Example parseline_glued : parseline "status-eng hello" = Some ("status", "-eng hello").
Proof. reflexivity. Qed.

Example parseline_padded : parseline "  kill  eng  hello " = Some ("kill", "eng  hello").
Proof. reflexivity. Qed.

Example parseline_help : parseline "?status" = Some ("help", "status").
Proof. reflexivity. Qed.

Example parseline_shell : parseline "!ls" = None.
Proof. reflexivity. Qed.

Example parseline_empty : parseline "   " = None.
Proof. reflexivity. Qed.

(** A port with white space before it is accepted and routed. *)
Example padded_port_valid :
  valid_cluster (demo_world OK []) (Some "smf1: 2181") = true.
Proof. reflexivity. Qed.

Example padded_port_routed :
  outcome (get_scheduler_client (demo_world OK []) (Some "smf1: 2181") false
             (init (demo_options "smf1: 2181"))) =
  Return (Some "tunnel1", ZookeeperSchedulerClient "smf1" 2181 false true false).
Proof. reflexivity. Qed.

Example padded_local_port_routed :
  outcome (get_scheduler_client (demo_world OK []) (Some "localhost: 1234") false
             (init (demo_options "localhost: 1234"))) =
  Return (None, LocalSchedulerClient 1234 true).
Proof. reflexivity. Qed.

Example int_neg : PyStr.py_int "-12" = Some (-12).
Proof. reflexivity. Qed.

Example int_bad : PyStr.py_int "12a" = None.
Proof. reflexivity. Qed.

Example float_ok : PyStr.is_float_literal "2.5e-3" = true.
Proof. reflexivity. Qed.

Example float_int : PyStr.is_float_literal "16" = true.
Proof. reflexivity. Qed.

Example float_bad : PyStr.is_float_literal "abc" = false.
Proof. reflexivity. Qed.

Example float_dot : PyStr.is_float_literal "." = false.
Proof. reflexivity. Qed.

(** ** Facts about the string primitives *)

Module PyStrFacts.
Import PyStr.

Lemma digit_not_colon a : is_digit a = true -> Ascii.eqb a ":" = false.
Proof.
  intros Hd. destruct (Ascii.eqb a ":") eqn:E; [|reflexivity].
  apply Ascii.eqb_eq in E. subst a. discriminate Hd.
Qed.

Lemma digits_split s : forall acc v,
  digits_value s acc = Some v -> split ":" s = [s].
Proof.
  induction s as [|a s IH]; intros acc v H; [reflexivity|].
  simpl in H. destruct (is_digit a) eqn:Hd; [|discriminate].
  simpl. rewrite (digit_not_colon _ Hd), (IH _ _ H). reflexivity.
Qed.

Lemma unsigned_split s v : unsigned_int s = Some v -> split ":" s = [s].
Proof.
  destruct s as [|a s]; [discriminate|]. unfold unsigned_int.
  apply digits_split.
Qed.

Lemma space_not_colon a : is_space a = true -> Ascii.eqb a ":" = false.
Proof.
  intros Hs. destruct (Ascii.eqb a ":") eqn:E; [|reflexivity].
  apply Ascii.eqb_eq in E. subst a. discriminate Hs.
Qed.

Lemma colon_free_split s : colon_free s = true -> split ":" s = [s].
Proof.
  induction s as [|a s IH]; [reflexivity|].
  simpl. intros H. apply andb_true_iff in H as [Ha Hs].
  apply negb_true_iff in Ha. rewrite Ha, (IH Hs). reflexivity.
Qed.

Lemma digits_colon_free s : forall acc v,
  digits_value s acc = Some v -> colon_free s = true.
Proof.
  induction s as [|a s IH]; intros acc v H; [reflexivity|].
  simpl in H. destruct (is_digit a) eqn:Hd; [|discriminate].
  simpl. rewrite (digit_not_colon _ Hd), (IH _ _ H). reflexivity.
Qed.

Lemma unsigned_colon_free s v : unsigned_int s = Some v -> colon_free s = true.
Proof.
  destruct s as [|a s]; [discriminate|]. unfold unsigned_int.
  apply digits_colon_free.
Qed.

Lemma lstrip_colon_free s : colon_free (lstrip s) = true -> colon_free s = true.
Proof.
  induction s as [|a s IH]; [reflexivity|].
  cbn [lstrip]. destruct (is_space a) eqn:Hs; [|auto].
  intros H. cbn [colon_free]. rewrite (space_not_colon _ Hs), (IH H).
  reflexivity.
Qed.

Lemma rstrip_colon_free s : colon_free (rstrip s) = true -> colon_free s = true.
Proof.
  induction s as [|a s IH]; [reflexivity|].
  cbn [rstrip]. destruct (rstrip s) as [|b r'] eqn:Er.
  - destruct (is_space a) eqn:Hs; intros H; cbn [colon_free] in *.
    + rewrite (space_not_colon _ Hs), IH; reflexivity.
    + apply andb_true_iff in H as [Ha _]. rewrite Ha, IH; reflexivity.
  - intros H. cbn [colon_free] in H. apply andb_true_iff in H as [Ha Hr].
    cbn [colon_free]. rewrite Ha, (IH Hr). reflexivity.
Qed.

Lemma py_int_colon_free s v : py_int s = Some v -> colon_free s = true.
Proof.
  unfold py_int, strip. intros H.
  apply lstrip_colon_free, rstrip_colon_free.
  destruct (rstrip (lstrip s)) as [|a r]; [discriminate|].
  cbn [colon_free].
  destruct (Ascii.eqb a "+") eqn:Ep.
  - apply Ascii.eqb_eq in Ep. subst a.
    rewrite (unsigned_colon_free _ _ H). reflexivity.
  - destruct (Ascii.eqb a "-") eqn:Em.
    + apply Ascii.eqb_eq in Em. subst a.
      destruct (unsigned_int r) eqn:Eu; [|discriminate].
      rewrite (unsigned_colon_free _ _ Eu). reflexivity.
    + apply (unsigned_colon_free _ _ H).
Qed.

(** A string [int] accepts has no colon: splitting leaves it whole. *)
Lemma py_int_split s v : py_int s = Some v -> split ":" s = [s].
Proof. intros H. apply colon_free_split, (py_int_colon_free _ _ H). Qed.

Lemma split_nonempty s : split ":" s <> [].
Proof.
  destruct s as [|a s]; simpl; [discriminate|].
  destruct (Ascii.eqb a ":"); [discriminate|].
  destruct (split ":" s); discriminate.
Qed.

Lemma prefix_colon a s :
  String.prefix ":" (String a s) = Ascii.eqb a ":".
Proof.
  cbn [String.prefix]. destruct (Ascii.ascii_dec ":" a) as [E|E].
  - subst a. destruct s; reflexivity.
  - symmetry. apply Ascii.eqb_neq. congruence.
Qed.

(** With two segments or more, [find] sees the colon. *)
Lemma find_from_split s : forall i,
  (2 <= length (split ":" s))%nat -> i <= find_from ":" s i.
Proof.
  induction s as [|a s IH]; intros i H.
  - simpl in H. lia.
  - unfold find_from; fold find_from. rewrite prefix_colon.
    simpl in H. destruct (Ascii.eqb a ":"); [lia|].
    assert (2 <= length (split ":" s))%nat as H'.
    { destruct (split ":" s); simpl in *; lia. }
    specialize (IH (i + 1) H'). lia.
Qed.

Lemma find_colon_split c :
  (2 <= length (split ":" c))%nat -> (find c ":" >? -1) = true.
Proof.
  intros H. apply (find_from_split c 0) in H. unfold find.
  apply Z.gtb_lt. lia.
Qed.

Lemma find_localhost p : find ("localhost:" ++ p) "localhost:" = 0.
Proof.
  unfold find. simpl. destruct p; reflexivity.
Qed.

Lemma split_localhost p :
  split ":" ("localhost:" ++ p) = "localhost" :: split ":" p.
Proof.
  simpl. destruct (split ":" p) eqn:E; [|reflexivity].
  exfalso. exact (split_nonempty p E).
Qed.

End PyStrFacts.

(** ** Proof set-up *)

(** The string primitives and the handlers stay folded under [cbn]: a
    proof unfolds the handler it is about and destructs the runs of the
    ones it calls. *)
#[local] Arguments PyStr.find : simpl never.
#[local] Arguments PyStr.split : simpl never.
#[local] Arguments PyStr.split_ws : simpl never.
#[local] Arguments PyStr.py_int : simpl never.
#[local] Arguments PyStr.py_float : simpl never.
#[local] Arguments String.append : simpl never.
#[local] Arguments String.eqb : simpl never.
#[local] Arguments calls : simpl never.
#[local] Arguments signings_and_calls : simpl never.
#[local] Arguments assert_valid_cluster : simpl never.
#[local] Arguments assert_exists : simpl never.
#[local] Arguments get_cluster : simpl never.
#[local] Arguments get_scheduler_client : simpl never.
#[local] Arguments _construct_scheduler : simpl never.
#[local] Arguments client : simpl never.
#[local] Arguments proxy : simpl never.
#[local] Arguments cluster : simpl never.
#[local] Arguments config : simpl never.
#[local] Arguments copy_app : simpl never.
#[local] Arguments copy_to_hadoop : simpl never.
#[local] Arguments copy_app_to_hadoop : simpl never.
#[local] Arguments get_and_set_config : simpl never.
#[local] Arguments acquire_session : simpl never.
#[local] Arguments acquire_session_key_or_die : simpl never.
#[local] Arguments rpc : simpl never.
#[local] Arguments check_and_log_response : simpl never.
#[local] Arguments print_task : simpl never.
#[local] Arguments Updater_update : simpl never.
#[local] Arguments requires_arguments : simpl never.
#[local] Arguments do_create_fn : simpl never.
#[local] Arguments do_inspect_fn : simpl never.
#[local] Arguments do_start_cron_fn : simpl never.
#[local] Arguments do_kill_fn : simpl never.
#[local] Arguments do_status_fn : simpl never.
#[local] Arguments do_update_fn : simpl never.
#[local] Arguments do_cancel_update_fn : simpl never.
#[local] Arguments do_get_quota_fn : simpl never.
#[local] Arguments do_set_quota_fn : simpl never.

(** ** Reasoning about runs *)

Lemma emits_only_ret p {A} (a : A) : emits_only p (ret a).
Proof. intros s. reflexivity. Qed.

Lemma emits_only_raise p {A} (e : exn) : emits_only p (@raise A e).
Proof. intros s. reflexivity. Qed.

Lemma emits_only_get p {A} (f : MesosCLI -> A) : emits_only p (get f).
Proof. intros s. reflexivity. Qed.

Lemma emits_only_modify p f : emits_only p (modify f).
Proof. intros s. reflexivity. Qed.

Lemma emits_only_emit (p : event -> bool) e : p e = true -> emits_only p (emit e).
Proof. intros H s. cbn. rewrite H. reflexivity. Qed.

Lemma emits_only_bind p {A B} (m : M A) (f : A -> M B) :
  emits_only p m -> (forall a, emits_only p (f a)) -> emits_only p (bind m f).
Proof.
  intros Hm Hf s. unfold bind. specialize (Hm s).
  destruct (m s) as [[a|e] s1 t1]; cbn in *; [|exact Hm].
  specialize (Hf a s1). destruct (f a s1) as [o s2 t2]. cbn in *.
  rewrite forallb_app, Hm, Hf. reflexivity.
Qed.

Lemma emits_only_attempt p {A} (m : M A) : emits_only p m -> emits_only p (attempt m).
Proof.
  intros Hm s. unfold attempt. specialize (Hm s).
  destruct (m s) as [o s1 t1]. exact Hm.
Qed.

Create HintDb runs.

Ltac emits_only_step :=
  match goal with
  | |- emits_only _ (bind _ _) => apply emits_only_bind; [|intros]
  | |- emits_only _ (ret _) => apply emits_only_ret
  | |- emits_only _ (raise _) => apply emits_only_raise
  | |- emits_only _ (get _) => apply emits_only_get
  | |- emits_only _ (modify _) => apply emits_only_modify
  | |- emits_only _ (emit _) => apply emits_only_emit; reflexivity
  | |- emits_only _ (log _ _) => apply emits_only_emit; reflexivity
  | |- emits_only _ (attempt _) => apply emits_only_attempt
  | |- emits_only _ (when _ _) => unfold when
  | |- emits_only _ (assert _ _) => unfold assert
  | |- emits_only _ (attr _) => unfold attr
  | |- emits_only _ (local _ _) => unfold local
  | |- emits_only _ (item _ _) => unfold item
  | |- emits_only _ (int _) => unfold int
  | |- emits_only _ (float _) => unfold float
  | |- emits_only _ (_die _) => unfold _die
  | |- emits_only _ (try_except_ValueError _ _) => unfold try_except_ValueError
  | |- emits_only _ (try_assignments _ _ _) => cbn [try_assignments]
  | |- emits_only _ (match ?x with _ => _ end) => destruct x
  | |- emits_only _ _ => solve [auto with runs]
  end.

Ltac emits_only_tac := repeat emits_only_step.

Lemma plumbing_assert_exists w n : emits_only is_plumbing (assert_exists w n).
Proof. unfold assert_exists. emits_only_tac. Qed.
#[local] Hint Resolve plumbing_assert_exists : runs.

Lemma plumbing_assert_valid_cluster w c :
  emits_only is_plumbing (assert_valid_cluster w c).
Proof. unfold assert_valid_cluster. emits_only_tac. Qed.
#[local] Hint Resolve plumbing_assert_valid_cluster : runs.

Lemma plumbing_get_cluster w a b : emits_only is_plumbing (get_cluster w a b).
Proof. unfold get_cluster. emits_only_tac. Qed.
#[local] Hint Resolve plumbing_get_cluster : runs.

Lemma plumbing_get_scheduler_client w c v :
  emits_only is_plumbing (get_scheduler_client w c v).
Proof.
  unfold get_scheduler_client, Location_is_prod, Location_is_corp,
    TunnelHelper_get_tunnel_host.
  emits_only_tac.
Qed.
#[local] Hint Resolve plumbing_get_scheduler_client : runs.

Lemma plumbing_construct_scheduler w cfg :
  emits_only is_plumbing (_construct_scheduler w cfg).
Proof. unfold _construct_scheduler. emits_only_tac. Qed.
#[local] Hint Resolve plumbing_construct_scheduler : runs.

Lemma plumbing_client w : emits_only is_plumbing (client w).
Proof. unfold client. emits_only_tac. Qed.

Lemma plumbing_proxy w : emits_only is_plumbing (proxy w).
Proof. unfold proxy. emits_only_tac. Qed.

Lemma plumbing_cluster w : emits_only is_plumbing (cluster w).
Proof. unfold cluster. emits_only_tac. Qed.

Lemma plumbing_config : emits_only is_plumbing config.
Proof. unfold config. emits_only_tac. Qed.
#[local] Hint Resolve plumbing_client plumbing_proxy plumbing_cluster
  plumbing_config : runs.

Lemma plumbing_subprocess_check_call w argv :
  emits_only is_plumbing (subprocess_check_call w argv).
Proof. unfold subprocess_check_call, subprocess_call_. emits_only_tac. Qed.
#[local] Hint Resolve plumbing_subprocess_check_call : runs.

Lemma plumbing_call w cmd host u : emits_only is_plumbing (call w cmd host u).
Proof. unfold call, subprocess_call_. emits_only_tac. Qed.

Lemma plumbing_check_call w cmd host u :
  emits_only is_plumbing (check_call w cmd host u).
Proof. unfold check_call. emits_only_tac. Qed.
#[local] Hint Resolve plumbing_call plumbing_check_call : runs.

Lemma plumbing_copy_to_hadoop w u h src dst :
  emits_only is_plumbing (copy_to_hadoop w u h src dst).
Proof. unfold copy_to_hadoop, Location_is_prod. emits_only_tac. Qed.
#[local] Hint Resolve plumbing_copy_to_hadoop : runs.

Lemma plumbing_copy_app_to_hadoop w u src p c h :
  emits_only is_plumbing (copy_app_to_hadoop w u src p c h).
Proof. unfold copy_app_to_hadoop. emits_only_tac. Qed.
#[local] Hint Resolve plumbing_copy_app_to_hadoop : runs.

Lemma plumbing_copy_app w job : emits_only is_plumbing (copy_app w job).
Proof. unfold copy_app, _tunnel_user. emits_only_tac. Qed.

Lemma plumbing_get_and_set_config w j c :
  emits_only is_plumbing (get_and_set_config w j c).
Proof. unfold get_and_set_config. emits_only_tac. Qed.
#[local] Hint Resolve plumbing_copy_app plumbing_get_and_set_config : runs.


Lemma emits_only_weaken (p q : event -> bool) {A} (m : M A) :
  (forall e, p e = true -> q e = true) -> emits_only p m -> emits_only q m.
Proof.
  intros Hpq Hm s. specialize (Hm s).
  rewrite forallb_forall in *. auto.
Qed.

Lemma filter_none (p q : event -> bool) (t : list event) :
  (forall e, p e = true -> q e = false) ->
  forallb p t = true -> filter q t = [].
Proof.
  intros Hpq. induction t as [|e t IH]; cbn; [reflexivity|].
  intros H. apply andb_true_iff in H as [He Ht].
  rewrite (Hpq e He). auto.
Qed.

Lemma plumbing_not_call e : is_plumbing e = true -> is_call e = false.
Proof. destruct e; cbn; congruence. Qed.

Lemma plumbing_not_sign e : is_plumbing e = true -> is_sign e = false.
Proof. destruct e; cbn; congruence. Qed.

Lemma plumbing_not_validation e : is_plumbing e = true -> is_validation e = false.
Proof. destruct e as [l m| | | | | | | | | |]; try reflexivity. destruct l, m; cbn; congruence. Qed.

Lemma no_sign_of_plumbing {A} (m : M A) :
  emits_only is_plumbing m -> emits_only no_sign m.
Proof.
  apply emits_only_weaken. intros e H. unfold no_sign.
  rewrite (plumbing_not_sign e H). reflexivity.
Qed.
#[local] Hint Resolve no_sign_of_plumbing : runs.

Lemma no_sign_rpc w c r : emits_only no_sign (rpc w c r).
Proof. unfold rpc. emits_only_tac. Qed.

Lemma no_sign_check_and_log_response resp :
  emits_only no_sign (check_and_log_response resp).
Proof. unfold check_and_log_response. emits_only_tac. Qed.

Lemma no_sign_Updater_update w r j c t k job :
  emits_only no_sign (Updater_update w r j c t k job).
Proof. unfold Updater_update. emits_only_tac. Qed.

Lemma no_sign_print_task t : emits_only no_sign (print_task t).
Proof. unfold print_task. emits_only_tac. Qed.
#[local] Hint Resolve no_sign_rpc no_sign_check_and_log_response
  no_sign_Updater_update no_sign_print_task : runs.

Lemma no_sign_print_tasks ts : emits_only no_sign (print_tasks ts).
Proof.
  induction ts as [|t ts IH]; cbn [print_tasks]; emits_only_tac.
Qed.
#[local] Hint Resolve no_sign_print_tasks : runs.

Lemma sign_count_app t1 t2 :
  sign_count (t1 ++ t2) = (sign_count t1 + sign_count t2)%nat.
Proof. unfold sign_count. rewrite filter_app, length_app. reflexivity. Qed.

Lemma signs_zero {A} (m : M A) : emits_only no_sign m -> signs 0 m.
Proof.
  intros Hm s. specialize (Hm s).
  assert (sign_count (emitted (m s)) = 0%nat) as ->; [|split; auto].
  unfold sign_count. rewrite (filter_none no_sign is_sign); [reflexivity| |exact Hm].
  intros e. unfold no_sign. destruct (is_sign e); cbn; congruence.
Qed.

Lemma signs_raise n {A} (e : exn) : signs n (@raise A e).
Proof. intros s. cbn. split; [lia | discriminate]. Qed.

Lemma signs_bind a b {A B} (m : M A) (f : A -> M B) :
  signs a m -> (forall x, signs b (f x)) -> signs (a + b) (bind m f).
Proof.
  intros Hm Hf s. unfold bind. specialize (Hm s). unfold returns in *.
  destruct (m s) as [[x|e] s1 t1]; cbn [outcome emitted final] in *.
  - specialize (Hf x s1). destruct (f x s1) as [o s2 t2].
    cbn [outcome emitted final] in *.
    rewrite sign_count_app. destruct Hm as [Hm1 Hm2], Hf as [Hf1 Hf2].
    rewrite (Hm2 eq_refl). split; [lia|]. intros Ho. rewrite (Hf2 Ho). reflexivity.
  - split; [lia | discriminate].
Qed.

Lemma signs_acquire w : signs 1 (acquire_session w).
Proof. intros s. cbn. auto. Qed.

Ltac signs_step :=
  match goal with
  | |- signs 1 (bind (acquire_session _) _) =>
      apply (signs_bind 1 0);
      [apply signs_acquire | intros; apply signs_zero; emits_only_tac]
  | |- signs 1 (bind _ _) =>
      apply (signs_bind 0 1); [apply signs_zero; emits_only_tac | intros]
  | |- signs _ (raise _) => apply signs_raise
  | |- signs _ (match ?x with _ => _ end) => destruct x
  end.

Lemma signs_requires_arguments n expected fn line :
  (forall sline, signs n (fn sline)) ->
  signs n (requires_arguments expected fn line).
Proof.
  intros Hfn. unfold requires_arguments.
  apply (signs_bind 0 n); [apply signs_zero; emits_only_tac | intros; apply Hfn].
Qed.

Lemma signs_do_create_fn w line : signs 1 (do_create_fn w line).
Proof. unfold do_create_fn. repeat signs_step. Qed.

Lemma signs_do_inspect_fn w line : signs 1 (do_inspect_fn w line).
Proof. unfold do_inspect_fn. repeat signs_step. Qed.

Lemma signs_do_start_cron_fn w line : signs 1 (do_start_cron_fn w line).
Proof. unfold do_start_cron_fn. repeat signs_step. Qed.

Lemma signs_do_kill_fn w line : signs 1 (do_kill_fn w line).
Proof. unfold do_kill_fn. repeat signs_step. Qed.

Lemma signs_do_update_fn w line : signs 1 (do_update_fn w line).
Proof. unfold do_update_fn. repeat signs_step. Qed.

Lemma signs_do_cancel_update_fn w line : signs 1 (do_cancel_update_fn w line).
Proof. unfold do_cancel_update_fn. repeat signs_step. Qed.

Lemma signs_do_set_quota_fn w line : signs 1 (do_set_quota_fn w line).
Proof. unfold do_set_quota_fn. repeat signs_step. Qed.

Lemma signs_do_status_fn w line : signs 0 (do_status_fn w line).
Proof. apply signs_zero. unfold do_status_fn. emits_only_tac. Qed.

Lemma signs_do_get_quota_fn w line : signs 0 (do_get_quota_fn w line).
Proof. apply signs_zero. unfold do_get_quota_fn. emits_only_tac. Qed.

(** ** Keys signed and keys passed *)

Lemma key_eqb_refl k : key_eqb k k = true.
Proof. unfold key_eqb. rewrite String.eqb_refl, Nat.eqb_refl. reflexivity. Qed.

Lemma key_eqb_eq a b : key_eqb a b = true -> a = b.
Proof.
  destruct a as [ua sa], b as [ub sb]. unfold key_eqb. cbn.
  intros H. apply andb_true_iff in H as [Hu Hs].
  apply String.eqb_eq in Hu. apply Nat.eqb_eq in Hs. subst. reflexivity.
Qed.

Lemma signed_before_passes owner key seen t :
  existsb (key_eqb key) seen = true ->
  forallb (passes_only key) t = true -> signed_before owner seen t = true.
Proof.
  intros Hseen. induction t as [|e t IH]; [reflexivity|].
  cbn [forallb]. intros H. apply andb_true_iff in H as [He Ht].
  specialize (IH Ht). unfold passes_only in He.
  destruct e; try discriminate He; cbn [signed_before call_key] in *;
    try exact IH.
  - destruct (request_key _) as [k|]; [|exact IH].
    rewrite (key_eqb_eq _ _ He), Hseen. exact IH.
  - rewrite (key_eqb_eq _ _ He), Hseen. exact IH.
Qed.

Lemma signed_before_keyless owner seen t1 t2 :
  forallb keyless t1 = true ->
  signed_before owner seen (t1 ++ t2) = signed_before owner seen t2.
Proof.
  induction t1 as [|e t1 IH]; [reflexivity|].
  cbn [forallb]. intros H. apply andb_true_iff in H as [He Ht].
  specialize (IH Ht). unfold keyless in He.
  destruct e; try discriminate He; cbn [signed_before call_key app] in *;
    try exact IH.
  destruct (request_key _); [discriminate He | exact IH].
Qed.

(** A call that carries a key carries one that was already there or one
    signed in the trace. *)
Lemma signed_before_In owner t : forall seen e k,
  signed_before owner seen t = true -> In e t -> call_key e = Some k ->
  In k seen \/ In (SignSession k owner) t.
Proof.
  induction t as [|e0 t IH]; intros seen e k Hs Hin Hk; [destruct Hin|].
  assert (forall seen', signed_before owner seen' t = true -> In e t ->
            In k seen' \/ In (SignSession k owner) (e0 :: t)) as Htail.
  { intros seen' Hs' Hin'. destruct (IH seen' e k Hs' Hin' Hk) as [H|H];
      [left; exact H | right; right; exact H]. }
  assert (e0 = e -> call_key e0 = Some k) as Hhead by (intros ->; exact Hk).
  destruct Hin as [Heq|Hin].
  - specialize (Hhead Heq).
    destruct e0; try discriminate Hhead; cbn [signed_before call_key] in *.
    + rewrite Hhead in Hs. apply andb_true_iff in Hs as [Hs _].
      apply existsb_exists in Hs as (k' & Hk' & Hkk').
      rewrite (key_eqb_eq _ _ Hkk'). left. exact Hk'.
    + injection Hhead as ->. apply andb_true_iff in Hs as [Hs _].
      apply existsb_exists in Hs as (k' & Hk' & Hkk').
      rewrite (key_eqb_eq _ _ Hkk'). left. exact Hk'.
  - clear Hhead.
    destruct e0; cbn [signed_before call_key] in Hs;
      try (apply (Htail seen Hs Hin)).
    + destruct (request_key _); [apply andb_true_iff in Hs as [_ Hs]|];
        apply (Htail seen Hs Hin).
    + apply andb_true_iff in Hs as [Ho Hs]. apply String.eqb_eq in Ho. subst.
      destruct (IH _ e k Hs Hin Hk) as [[H|H]|H].
      * subst. right. left. reflexivity.
      * left. exact H.
      * right. right. exact H.
    + apply andb_true_iff in Hs as [_ Hs]. apply (Htail seen Hs Hin).
Qed.

Lemma mints_keyless owner {A} (m : M A) :
  emits_only keyless m -> mints_what_it_passes owner m.
Proof.
  intros Hm s. specialize (Hm s).
  rewrite <- (app_nil_r (emitted (m s))).
  rewrite (signed_before_keyless _ _ _ _ Hm). reflexivity.
Qed.

Lemma mints_bind_keyless owner {A B} (m : M A) (f : A -> M B) :
  emits_only keyless m -> (forall a, mints_what_it_passes owner (f a)) ->
  mints_what_it_passes owner (bind m f).
Proof.
  intros Hm Hf s. unfold bind. specialize (Hm s).
  destruct (m s) as [[a|e] s1 t1]; cbn [emitted] in *.
  - specialize (Hf a s1). destruct (f a s1) as [o s2 t2]. cbn [emitted] in *.
    rewrite (signed_before_keyless _ _ _ _ Hm). exact Hf.
  - rewrite <- (app_nil_r t1), (signed_before_keyless _ _ _ _ Hm). reflexivity.
Qed.

Lemma mints_acquire w {B} (f : SessionKey -> M B) :
  (forall key, emits_only (passes_only key) (f key)) ->
  mints_what_it_passes (getuser w) (bind (acquire_session w) f).
Proof.
  intros Hf s. unfold bind, acquire_session, acquire_session_key_or_die. cbn.
  specialize (Hf {| user := getuser w; signature := signed s |}
                 (set_signed (S (signed s)) s)).
  destruct (f _ _) as [o s2 t2]. cbn [emitted] in *.
  cbn [signed_before app]. rewrite String.eqb_refl. cbn [andb].
  apply signed_before_passes with (key := {| user := getuser w; signature := signed s |});
    [|exact Hf].
  cbn [existsb]. rewrite key_eqb_refl. reflexivity.
Qed.

Lemma plumbing_keyless e : is_plumbing e = true -> keyless e = true.
Proof. destruct e; cbn; congruence. Qed.

Lemma keyless_passes key e : keyless e = true -> passes_only key e = true.
Proof.
  unfold keyless, passes_only.
  destruct e; try congruence; destruct (call_key _); congruence.
Qed.

Lemma keyless_of_plumbing {A} (m : M A) :
  emits_only is_plumbing m -> emits_only keyless m.
Proof. apply emits_only_weaken, plumbing_keyless. Qed.

Lemma passes_of_plumbing key {A} (m : M A) :
  emits_only is_plumbing m -> emits_only (passes_only key) m.
Proof.
  apply emits_only_weaken. intros e H. apply keyless_passes, plumbing_keyless, H.
Qed.
#[local] Hint Resolve keyless_of_plumbing passes_of_plumbing : runs.

Lemma keyless_rpc w c r : request_key r = None -> emits_only keyless (rpc w c r).
Proof.
  intros Hr. unfold rpc. apply emits_only_bind; [|intros; apply emits_only_ret].
  apply emits_only_emit. cbn. rewrite Hr. reflexivity.
Qed.

Lemma passes_rpc w key c r :
  request_key r = Some key -> emits_only (passes_only key) (rpc w c r).
Proof.
  intros Hr. unfold rpc. apply emits_only_bind; [|intros; apply emits_only_ret].
  apply emits_only_emit. cbn. rewrite Hr. apply key_eqb_refl.
Qed.

Lemma passes_Updater_update w r j c t key job :
  emits_only (passes_only key) (Updater_update w r j c t key job).
Proof.
  unfold Updater_update. apply emits_only_bind; [|intros; apply emits_only_ret].
  apply emits_only_emit. cbn. apply key_eqb_refl.
Qed.

Lemma keyless_check_and_log_response resp :
  emits_only keyless (check_and_log_response resp).
Proof. unfold check_and_log_response. emits_only_tac. Qed.

Lemma passes_check_and_log_response key resp :
  emits_only (passes_only key) (check_and_log_response resp).
Proof. unfold check_and_log_response. emits_only_tac. Qed.

Lemma keyless_print_task t : emits_only keyless (print_task t).
Proof. unfold print_task. emits_only_tac. Qed.
#[local] Hint Resolve keyless_rpc passes_rpc passes_Updater_update
  keyless_check_and_log_response passes_check_and_log_response
  keyless_print_task : runs.

Lemma keyless_print_tasks ts : emits_only keyless (print_tasks ts).
Proof.
  induction ts as [|t ts IH]; cbn [print_tasks]; emits_only_tac.
Qed.
#[local] Hint Resolve keyless_print_tasks : runs.

Ltac mints_step :=
  match goal with
  | |- mints_what_it_passes _ (bind (acquire_session _) _) =>
      apply mints_acquire; intros; emits_only_tac
  | |- mints_what_it_passes _ (bind _ _) =>
      apply mints_bind_keyless; [emits_only_tac | intros]
  | |- mints_what_it_passes _ (raise _) =>
      apply mints_keyless, emits_only_raise
  | |- mints_what_it_passes _ (match ?x with _ => _ end) => destruct x
  end.

Lemma mints_requires_arguments owner expected fn line :
  (forall sline, mints_what_it_passes owner (fn sline)) ->
  mints_what_it_passes owner (requires_arguments expected fn line).
Proof.
  intros Hfn. unfold requires_arguments.
  apply mints_bind_keyless; [emits_only_tac | intros; apply Hfn].
Qed.

Lemma keyless_requires_arguments expected fn line :
  (forall sline, emits_only keyless (fn sline)) ->
  emits_only keyless (requires_arguments expected fn line).
Proof. intros Hfn. unfold requires_arguments. emits_only_tac. Qed.

Lemma mints_do_create_fn w line :
  mints_what_it_passes (getuser w) (do_create_fn w line).
Proof. unfold do_create_fn. repeat mints_step. Qed.

Lemma mints_do_inspect_fn w line :
  mints_what_it_passes (getuser w) (do_inspect_fn w line).
Proof. unfold do_inspect_fn. repeat mints_step. Qed.

Lemma mints_do_start_cron_fn w line :
  mints_what_it_passes (getuser w) (do_start_cron_fn w line).
Proof. unfold do_start_cron_fn. repeat mints_step. Qed.

Lemma mints_do_kill_fn w line :
  mints_what_it_passes (getuser w) (do_kill_fn w line).
Proof. unfold do_kill_fn. repeat mints_step. Qed.

Lemma mints_do_update_fn w line :
  mints_what_it_passes (getuser w) (do_update_fn w line).
Proof. unfold do_update_fn. repeat mints_step. Qed.

Lemma mints_do_cancel_update_fn w line :
  mints_what_it_passes (getuser w) (do_cancel_update_fn w line).
Proof. unfold do_cancel_update_fn. repeat mints_step. Qed.

Lemma mints_do_set_quota_fn w line :
  mints_what_it_passes (getuser w) (do_set_quota_fn w line).
Proof. unfold do_set_quota_fn. repeat mints_step. Qed.

Lemma keyless_do_status_fn w line : emits_only keyless (do_status_fn w line).
Proof. unfold do_status_fn. emits_only_tac. Qed.

Lemma keyless_do_get_quota_fn w line : emits_only keyless (do_get_quota_fn w line).
Proof. unfold do_get_quota_fn. emits_only_tac. Qed.

Lemma signings_and_calls_app t1 t2 :
  signings_and_calls (t1 ++ t2) =
  (signings_and_calls t1 ++ signings_and_calls t2)%list.
Proof. apply filter_app. Qed.

Lemma signings_and_calls_cons e t :
  signings_and_calls (e :: t) =
  if is_sign e || is_call e then e :: signings_and_calls t
  else signings_and_calls t.
Proof. reflexivity. Qed.

Lemma signings_and_calls_plumbing t :
  forallb is_plumbing t = true -> signings_and_calls t = [].
Proof.
  apply filter_none. intros e H.
  rewrite (plumbing_not_sign e H), (plumbing_not_call e H). reflexivity.
Qed.

Ltac signings_simpl :=
  cbn [emitted outcome final];
  repeat (rewrite ?signings_and_calls_app, ?signings_and_calls_cons;
          cbn [is_sign is_call orb app]);
  rewrite ?signings_and_calls_plumbing by assumption;
  cbn [app].

Lemma truthy_nonempty (c : string) : c <> "" -> PyStr.truthy (Some c) = true.
Proof. destruct c; [congruence | reflexivity]. Qed.

Lemma calls_app t1 t2 : calls (t1 ++ t2) = (calls t1 ++ calls t2)%list.
Proof. apply filter_app. Qed.

Lemma calls_cons e t :
  calls (e :: t) = if is_call e then e :: calls t else calls t.
Proof. reflexivity. Qed.

Lemma calls_plumbing t : forallb is_plumbing t = true -> calls t = [].
Proof. apply filter_none. exact plumbing_not_call. Qed.

Lemma In_calls e t : In e t -> is_call e = true -> In e (calls t).
Proof. intros Hin Hc. apply filter_In. auto. Qed.

Ltac calls_simpl :=
  cbn [emitted outcome final];
  repeat (rewrite ?calls_app, ?calls_cons; cbn [is_call app]);
  rewrite ?calls_plumbing by assumption;
  cbn [app].

(** ** ResponseValidator *)

(** C6. The validator logs the symbolic name of the code and the message
    at INFO and emits nothing else (no retry), leaves the object as it
    was, and raises SystemExit(1), the exit status 1 of the process,
    exactly when the code is not OK; on OK it returns, and the exit
    status the run stands for is 0. *)
Theorem C6_check_and_log_response (resp : Response) (s : MesosCLI) :
  check_and_log_response resp s =
  {| outcome := match responseCode resp with
                | OK => Return tt
                | Failure _ => Raise (SystemExit 1)
                end;
     final := s;
     emitted := [Log INFO (MsgResponse
                             (ResponseCode._VALUES_TO_NAMES (responseCode resp))
                             (message resp))] |}
  /\ exit_status (check_and_log_response resp s) =
     match responseCode resp with
     | OK => 0
     | Failure _ => 1
     end.
Proof.
  unfold check_and_log_response. destruct (responseCode resp); cbn; auto.
Qed.

(** The exit of a handler is the exit of the process: main only turns an
    AssertionError into _die. *)
Lemma main_propagates_exit w (args : list string) (s : MesosCLI) (code : Z) :
  args <> [] ->
  outcome (onecmd w (PyStr.join " " args) s) = Raise (SystemExit code) ->
  exit_status (main_body w args s) = code.
Proof.
  intros Hargs Hout. unfold main_body, exit_status.
  destruct args as [|a args]; [congruence|].
  unfold bind, attempt.
  destruct (onecmd w (PyStr.join " " (a :: args)) s) as [o s1 t1].
  cbn in Hout. subst o. reflexivity.
Qed.

(** ** ConnectionRouter *)

Lemma localhost_run (w : World) (p : string) (n : Z) (verbose : bool)
  (s : MesosCLI) :
  PyStr.py_int p = Some n ->
  get_scheduler_client w (Some ("localhost:" ++ p)) verbose s =
  {| outcome := Return (None, LocalSchedulerClient n true);
     final := s;
     emitted := [LocationProbe;
                 Log INFO (MsgLocation (if is_prod w
                                        then "Auto-detected location: prod"
                                        else "corp"));
                 Log INFO MsgLocalScheduler;
                 NewScheduler (LocalSchedulerClient n true)] |}.
Proof.
  intros Hp. unfold get_scheduler_client.
  cbn. rewrite PyStrFacts.find_localhost. cbn.
  rewrite PyStrFacts.split_localhost, (PyStrFacts.py_int_split _ _ Hp).
  cbn. unfold int. rewrite Hp. reflexivity.
Qed.

(** C7. For the cluster string localhost:p, p a port that int accepts,
    get_scheduler_client returns no tunnel host and a local scheduler
    client at that port over SSL, in any world, so whatever the locality
    probes answer; it looks up no tunnel and makes no discovery client. *)
Theorem C7_localhost_direct (w : World) (p : string) (n : Z) (verbose : bool)
  (s : MesosCLI) :
  PyStr.py_int p = Some n ->
  let r := get_scheduler_client w (Some ("localhost:" ++ p)) verbose s in
  outcome r = Return (None, LocalSchedulerClient n true) /\
  final r = s /\
  existsb is_discovery (emitted r) = false.
Proof.
  intros Hp r. subst r. rewrite (localhost_run w p n verbose s Hp). cbn. auto.
Qed.

Lemma C7_witness :
  let r := get_scheduler_client (demo_world OK []) (Some ("localhost:" ++ "1234"))
             false (init (demo_options "localhost:1234")) in
  outcome r = Return (None, LocalSchedulerClient 1234 true) /\
  final r = init (demo_options "localhost:1234") /\
  existsb is_discovery (emitted r) = false.
Proof.
  apply (C7_localhost_direct (demo_world OK []) "1234" 1234). reflexivity.
Defined.

(** The same through the whole resolution: the validator lets
    localhost:p pass without asking the registry. *)
Lemma localhost_valid (w : World) (p : string) (n : Z) (s : MesosCLI) :
  PyStr.py_int p = Some n ->
  assert_valid_cluster w (Some ("localhost:" ++ p)) s =
  {| outcome := Return tt; final := s; emitted := [] |}.
Proof.
  intros Hp. unfold assert_valid_cluster.
  assert (PyStr.truthy (Some ("localhost:" ++ p)) = true) as -> by reflexivity.
  cbn.
  assert ((PyStr.find ("localhost:" ++ p) ":" >? -1) = true) as ->.
  { apply PyStrFacts.find_colon_split. rewrite PyStrFacts.split_localhost.
    destruct (PyStr.split ":" p) eqn:E; [|simpl; lia].
    exfalso. exact (PyStrFacts.split_nonempty p E). }
  rewrite PyStrFacts.split_localhost, (PyStrFacts.py_int_split _ _ Hp).
  cbn. rewrite String.eqb_refl. cbn.
  unfold try_except_ValueError, attempt, bind, int. rewrite Hp. reflexivity.
Qed.

(** C8 as amended.  When both clusters are given and differ, get_cluster
    logs the warning and then does with the command-line value exactly
    what the validator does with it: it returns the command-line value
    when the validator accepts it, and fails as the validator fails
    otherwise.  The mismatch itself adds no failure. *)
Theorem C8_command_line_cluster_wins (w : World) (cmd cfg : string)
  (s : MesosCLI) :
  cmd <> "" -> cfg <> "" -> cmd <> cfg ->
  let v := assert_valid_cluster w (Some cmd) s in
  let r := get_cluster w (Some cmd) (Some cfg) s in
  emitted r = Log ERROR (MsgClusterMismatch (Some cmd)) :: emitted v
  /\ final r = final v
  /\ outcome r = match outcome v with
                 | Return _ => Return (Some cmd)
                 | Raise e => Raise e
                 end.
Proof.
  intros Hcmd Hcfg Hneq v r. subst v r. unfold get_cluster.
  rewrite (truthy_nonempty cmd Hcmd), (truthy_nonempty cfg Hcfg).
  assert (PyStr.differ (Some cfg) (Some cmd) = true) as ->.
  { unfold PyStr.differ. apply negb_true_iff, String.eqb_neq. congruence. }
  unfold PyStr.py_or. rewrite (truthy_nonempty cmd Hcmd). unfold bind. cbn.
  destruct (assert_valid_cluster w (Some cmd) s) as [[[]|e] s1 t1]; cbn;
    rewrite ?app_nil_r; auto.
Qed.

Lemma C8_witness :
  let v := assert_valid_cluster (demo_world OK []) (Some "smf1")
             (init (demo_options "smf1")) in
  let r := get_cluster (demo_world OK []) (Some "smf1") (Some "sjc1")
             (init (demo_options "smf1")) in
  emitted r = Log ERROR (MsgClusterMismatch (Some "smf1")) :: emitted v
  /\ final r = final v
  /\ outcome r = match outcome v with
                 | Return _ => Return (Some "smf1")
                 | Raise e => Raise e
                 end.
Proof.
  apply (C8_command_line_cluster_wins (demo_world OK []) "smf1" "sjc1");
    discriminate.
Defined.

(** With a valid command-line value the run is the warning and the
    command-line value. *)
Example get_cluster_mismatch :
  get_cluster (demo_world OK []) (Some "smf1") (Some "sjc1")
    (init (demo_options "smf1")) =
  {| outcome := Return (Some "smf1"); final := init (demo_options "smf1");
     emitted := [Log ERROR (MsgClusterMismatch (Some "smf1"))] |}.
Proof. reflexivity. Qed.

(** C8 as stated fails: both clusters are given and differ, and the run
    ends in _die, because the port of the command-line value is not a
    number. *)
Lemma C8_counterexample :
  PyStr.truthy (Some "localhost:abc") = true /\
  PyStr.truthy (Some "smf1") = true /\
  PyStr.differ (Some "smf1") (Some "localhost:abc") = true /\
  get_cluster (demo_world OK []) (Some "localhost:abc") (Some "smf1")
    (init (demo_options "localhost:abc")) =
  {| outcome := Raise (SystemExit 1);
     final := init (demo_options "localhost:abc");
     emitted := [Log ERROR (MsgClusterMismatch (Some "localhost:abc"));
                 Log FATAL (MsgInvalidCluster "localhost:abc")] |}.
Proof. repeat split; reflexivity. Qed.

(** C10. A cluster string with three segments or more whose first segment
    is registered passes the validator, which emits nothing: the port is
    only looked at when there are exactly two segments.  Routing the
    same string, unless it starts with localhost:, stops at the two-way
    unpacking with ValueError before any scheduler client is made. *)
Theorem C10_extra_segments_accepted (w : World) (c s0 s1 s2 : string)
  (rest : list string) (verbose : bool) (s : MesosCLI) :
  PyStr.split ":" c = s0 :: s1 :: s2 :: rest ->
  cluster_exists w s0 = true ->
  assert_valid_cluster w (Some c) s =
    {| outcome := Return tt; final := s; emitted := [] |}
  /\ (PyStr.find c "localhost:" <> 0 ->
      get_scheduler_client w (Some c) verbose s =
        {| outcome := Raise ValueError; final := s;
           emitted := [LocationProbe;
                       Log INFO (MsgLocation
                                   (if is_prod w
                                    then "Auto-detected location: prod"
                                    else "corp"))] |}).
Proof.
  intros Hsplit Hreg.
  assert ((PyStr.find c ":" >? -1) = true) as Hfind.
  { apply PyStrFacts.find_colon_split. rewrite Hsplit. simpl. lia. }
  assert (c <> "") as Hne.
  { intros ->. discriminate Hsplit. }
  split.
  - unfold assert_valid_cluster. rewrite (truthy_nonempty c Hne). cbn.
    rewrite Hfind, Hsplit. cbn.
    unfold assert_exists. rewrite Hreg.
    destruct (negb (String.eqb s0 "localhost")); reflexivity.
  - intros Hlocal. unfold get_scheduler_client. cbn.
    destruct (PyStr.find c "localhost:" =? 0) eqn:E.
    + apply Z.eqb_eq in E. contradiction.
    + rewrite Hfind, Hsplit. reflexivity.
Qed.

Lemma C10_witness :
  assert_valid_cluster (demo_world OK []) (Some "smf1:1234:extra")
    (init (demo_options "smf1:1234:extra")) =
    {| outcome := Return tt; final := init (demo_options "smf1:1234:extra");
       emitted := [] |}
  /\ (PyStr.find "smf1:1234:extra" "localhost:" <> 0 ->
      get_scheduler_client (demo_world OK []) (Some "smf1:1234:extra") false
        (init (demo_options "smf1:1234:extra")) =
        {| outcome := Raise ValueError;
           final := init (demo_options "smf1:1234:extra");
           emitted := [LocationProbe; Log INFO (MsgLocation "corp")] |}).
Proof.
  apply (C10_extra_segments_accepted (demo_world OK []) "smf1:1234:extra"
           "smf1" "1234" "extra" []); reflexivity.
Defined.

(** ** SchedulerSession *)

Lemma client_run w s oc s1 t :
  client w s = {| outcome := Return oc; final := s1; emitted := t |} ->
  _client s1 = oc.
Proof.
  unfold client, bind. cbn. destruct (_client s) eqn:E; cbn.
  - intros H. injection H as <- <- _. reflexivity.
  - destruct (_construct_scheduler w (_config s) s) as [[[]|e] s2 t2]; cbn;
      intros H; [injection H as <- <- _; reflexivity | discriminate].
Qed.

(** What the accessors do cache, and what proxy does not. *)
Lemma client_cached w s c :
  _client s = Some c ->
  client w s = {| outcome := Return (Some c); final := s; emitted := [] |}.
Proof.
  intros H. unfold client, bind. cbn. rewrite H. cbn. rewrite H. reflexivity.
Qed.

Lemma cluster_cached w s :
  PyStr.truthy (_cluster s) = true ->
  cluster w s = {| outcome := Return (_cluster s); final := s; emitted := [] |}.
Proof. intros H. unfold cluster, bind. cbn. rewrite H. reflexivity. Qed.

Lemma proxy_cached w s :
  PyStr.truthy (_proxy s) = true ->
  proxy w s = {| outcome := Return (_proxy s); final := s; emitted := [] |}.
Proof. intros H. unfold proxy, bind. cbn. rewrite H. reflexivity. Qed.

Lemma proxy_constructs_again w s :
  PyStr.truthy (_proxy s) = false ->
  exists t, emitted (proxy w s) = ConstructScheduler :: t.
Proof.
  intros H. unfold proxy, bind. cbn. rewrite H. cbn.
  unfold _construct_scheduler, bind. cbn.
  destruct (get_cluster w _ _ s) as [[cl|e] s1 t1]; cbn; [|eauto].
  destruct (get_scheduler_client w cl _ _) as [[[p sch]|e] s2 t2]; cbn; [|eauto].
  destruct (get_thrift_client w sch); cbn; eauto.
Qed.

(** C4, at the failing input: the command line
    --cluster=localhost:1234 --copy_app_from=hello.zip create hello hello.mesos.
    No tunnel is needed, so _proxy stays None after the first
    construction, and the accesses cluster(), proxy(), client() of the one
    command enter _construct_scheduler twice; so do the three accessors
    called in a row. *)
Theorem C4_proxy_access_constructs_again :
  let w := demo_world OK [] in
  let r := main w ["create"; "hello"; "hello.mesos"]
             (demo_copy_options "localhost:1234") in
  let a := (cluster w ;; proxy w ;; client w)
             (init (demo_options "localhost:1234")) in
  outcome r = Return tt /\
  _proxy (final r) = None /\
  constructions (emitted r) = 2%nat /\
  outcome a = Return (Some {| client_of := LocalSchedulerClient 1234 true |}) /\
  constructions (emitted a) = 2%nat.
Proof. repeat split; reflexivity. Qed.

(** ** UpdateOrchestrator *)

Lemma do_update_fn_calls w line s :
  calls (emitted (do_update_fn w line s)) = [] \/
  exists c job key,
    calls (emitted (do_update_fn w line s)) = update_calls w c job key.
Proof.
  unfold do_update_fn.
  destruct line as [|a [|b [|? ?]]]; try (left; reflexivity).
  unfold bind.
  pose proof (plumbing_get_and_set_config w a b s) as H1.
  destruct (get_and_set_config w a b s) as [[job|e] s1 t1];
    cbn [emitted] in H1; [|left; calls_simpl; reflexivity].
  pose proof (plumbing_copy_app w job s1) as H2.
  destruct (copy_app w job s1) as [[[]|e] s2 t2];
    cbn [emitted] in H2; [|left; calls_simpl; reflexivity].
  unfold acquire_session, acquire_session_key_or_die. cbn.
  set (key := {| user := getuser w; signature := signed s2 |}).
  pose proof (plumbing_client w (set_signed (S (signed s2)) s2)) as H3.
  destruct (client w (set_signed (S (signed s2)) s2)) as [[oc|e] s3 t3] eqn:Ec;
    cbn [emitted] in H3; [|left; calls_simpl; reflexivity].
  apply client_run in Ec.
  destruct oc as [c|]; cbn; [|left; calls_simpl; reflexivity].
  right. exists c, job, key.
  unfold rpc, check_and_log_response, Updater_update, update_calls. cbn.
  destruct (responseCode (scheduler_rpc w c (startUpdate job key))) eqn:Er; cbn.
  - rewrite (client_cached w s3 c Ec). cbn.
    destruct (updater_update w (role (owner job)) (name job) (Some c)
                (updateToken (scheduler_rpc w c (startUpdate job key))) key job);
      cbn; rewrite (client_cached w s3 c Ec); cbn;
      match goal with
      | |- context [responseCode ?r] => destruct (responseCode r)
      end; cbn; calls_simpl; reflexivity.
  - calls_simpl. reflexivity.
Qed.

Lemma do_update_calls w line s :
  calls (emitted (do_update w line s)) = [] \/
  exists c job key,
    calls (emitted (do_update w line s)) = update_calls w c job key.
Proof.
  unfold do_update, requires_arguments, bind.
  destruct (length (PyStr.split_ws line) =? length ["job"; "config"])%nat; cbn.
  - destruct (do_update_fn_calls w (PyStr.split_ws line) s) as [H|H];
      destruct (do_update_fn w (PyStr.split_ws line) s) as [o s1 t1];
      [left|right]; exact H.
  - left. reflexivity.
Qed.

(** C1. In every run of the update command that reaches the start-update
    call and gets an OK answer, the calls that leave the client are, in
    this order: that start-update call, one call of the updater, and one
    finish-update call carrying the token of the start response, with
    SUCCESS when the updater reports no failed shard and FAILED
    otherwise.  No other call is made, so no finish-update with
    TERMINATE. *)
Theorem C1_update_saga (w : World) (line : string) (s : MesosCLI)
  (c : Client) (job : JobConfiguration) (key : SessionKey) :
  let r := do_update w line s in
  let resp := scheduler_rpc w c (startUpdate job key) in
  let failed_shards :=
    updater_update w (role (owner job)) (name job) (Some c) (updateToken resp)
      key job in
  In (Rpc c (startUpdate job key)) (emitted r) ->
  responseCode resp = OK ->
  calls (emitted r) =
    [Rpc c (startUpdate job key);
     UpdaterUpdate (role (owner job)) (name job) (Some c) (updateToken resp)
       key job;
     Rpc c (finishUpdate (role (owner job)) (name job)
              match failed_shards with
              | [] => SUCCESS
              | _ :: _ => FAILED
              end
              (updateToken resp) key)].
Proof.
  intros r resp failed_shards Hin Hok. subst r.
  apply In_calls in Hin; [|reflexivity].
  destruct (do_update_calls w line s) as [H|(c' & job' & key' & H)];
    rewrite H in *; [destruct Hin|].
  assert (Rpc c' (startUpdate job' key') = Rpc c (startUpdate job key)) as E.
  { unfold update_calls in Hin. destruct Hin as [E|Hin]; [exact E|].
    destruct (responseCode (scheduler_rpc w c' (startUpdate job' key')));
      [destruct Hin as [E|[E|[]]]; discriminate E | destruct Hin]. }
  injection E as -> -> ->.
  unfold update_calls. fold resp. rewrite Hok. reflexivity.
Qed.

Lemma C1_witness :
  let w := demo_world OK [3] in
  let r := do_update w "hello hello.mesos" (init (demo_options "smf1")) in
  let c := {| client_of := ZookeeperSchedulerClient "smf1" 2181 false true false |} in
  let job := {| name := "hello"; owner := {| role := "eng" |} |} in
  let key := {| user := "alice"; signature := 0 |} in
  calls (emitted r) =
    [Rpc c (startUpdate job key);
     UpdaterUpdate "eng" "hello" (Some c) (Some "token-7") key job;
     Rpc c (finishUpdate "eng" "hello" FAILED (Some "token-7") key)].
Proof.
  apply (C1_update_saga (demo_world OK [3]) "hello hello.mesos"
           (init (demo_options "smf1"))
           {| client_of := ZookeeperSchedulerClient "smf1" 2181 false true false |}
           {| name := "hello"; owner := {| role := "eng" |} |}
           {| user := "alice"; signature := 0 |}).
  - vm_compute. repeat (first [left; reflexivity | right]).
  - reflexivity.
Defined.

(** A start-update call that is refused ends the run: no updater, no
    finish-update. *)
Example update_refused :
  let r := main (demo_world (Failure "INVALID_REQUEST") [])
             ["update"; "hello"; "hello.mesos"] (demo_options "localhost:1234") in
  calls (emitted r) =
    [Rpc {| client_of := LocalSchedulerClient 1234 true |}
       (startUpdate {| name := "hello"; owner := {| role := "eng" |} |}
          {| user := "alice"; signature := 0 |})] /\
  exit_status r = 1.
Proof. split; reflexivity. Qed.

(** cancel_update is the separate entry point: one finish-update call
    with TERMINATE and no token. *)
Example cancel_update_run :
  calls (emitted (main (demo_world OK []) ["cancel_update"; "eng"; "hello"]
                    (demo_options "localhost:1234"))) =
    [Rpc {| client_of := LocalSchedulerClient 1234 true |}
       (finishUpdate "eng" "hello" TERMINATE None
          {| user := "alice"; signature := 0 |})].
Proof. reflexivity. Qed.

(** ** SessionAuthenticator *)

Lemma In_update_calls_key w c job key c1 r1 k1 :
  In (Rpc c1 r1) (update_calls w c job key) ->
  request_key r1 = Some k1 -> k1 = key.
Proof.
  unfold update_calls. intros [E|Hin] Hk.
  - injection E as <- <-. cbn in Hk. congruence.
  - destruct (responseCode (scheduler_rpc w c (startUpdate job key)));
      [|destruct Hin].
    destruct Hin as [E|[E|[]]]; [discriminate E|].
    injection E as <- <-. cbn in Hk. congruence.
Qed.

(** C5 as amended.  Each run of create, inspect, start_cron, kill, update,
    cancel_update and set_quota has at most one session key signed, and
    exactly one when the handler returns; status and get_quota have none
    signed, and no call of theirs carries a key.  In each of the seven
    commands that sign, every key is signed for the current user and
    every call that carries a key carries one that was signed earlier in
    the same run, which is then the one key signed there.  So the keys an
    update passes to the scheduler are all the same key: the one signed
    for that run goes to start-update, to the updater and to
    finish-update alike. *)
Theorem C5_one_key_per_command (w : World) (line : string) :
  signs 1 (do_create w line) /\
  signs 1 (do_inspect w line) /\
  signs 1 (do_start_cron w line) /\
  signs 1 (do_kill w line) /\
  signs 1 (do_update w line) /\
  signs 1 (do_cancel_update w line) /\
  signs 1 (do_set_quota w line) /\
  signs 0 (do_status w line) /\
  signs 0 (do_get_quota w line) /\
  (forall s c1 r1 k1 c2 r2 k2,
      In (Rpc c1 r1) (emitted (do_update w line s)) ->
      In (Rpc c2 r2) (emitted (do_update w line s)) ->
      request_key r1 = Some k1 -> request_key r2 = Some k2 -> k1 = k2) /\
  mints_what_it_passes (getuser w) (do_create w line) /\
  mints_what_it_passes (getuser w) (do_inspect w line) /\
  mints_what_it_passes (getuser w) (do_start_cron w line) /\
  mints_what_it_passes (getuser w) (do_kill w line) /\
  mints_what_it_passes (getuser w) (do_update w line) /\
  mints_what_it_passes (getuser w) (do_cancel_update w line) /\
  mints_what_it_passes (getuser w) (do_set_quota w line) /\
  emits_only keyless (do_status w line) /\
  emits_only keyless (do_get_quota w line) /\
  (forall h,
      In h [do_create w; do_inspect w; do_start_cron w; do_kill w;
            do_update w; do_cancel_update w; do_set_quota w] ->
      forall s e k,
        In e (emitted (h line s)) -> call_key e = Some k ->
        In (SignSession k (getuser w)) (emitted (h line s))).
Proof.
  assert (mints_what_it_passes (getuser w) (do_create w line) /\
          mints_what_it_passes (getuser w) (do_inspect w line) /\
          mints_what_it_passes (getuser w) (do_start_cron w line) /\
          mints_what_it_passes (getuser w) (do_kill w line) /\
          mints_what_it_passes (getuser w) (do_update w line) /\
          mints_what_it_passes (getuser w) (do_cancel_update w line) /\
          mints_what_it_passes (getuser w) (do_set_quota w line))
    as (M1 & M2 & M3 & M4 & M5 & M6 & M7).
  { repeat match goal with |- _ /\ _ => split end;
      apply mints_requires_arguments; intros sline.
    - apply mints_do_create_fn.
    - apply mints_do_inspect_fn.
    - apply mints_do_start_cron_fn.
    - apply mints_do_kill_fn.
    - apply mints_do_update_fn.
    - apply mints_do_cancel_update_fn.
    - apply mints_do_set_quota_fn. }
  repeat match goal with |- _ /\ _ => split end; try assumption.
  - apply signs_requires_arguments, signs_do_create_fn.
  - apply signs_requires_arguments, signs_do_inspect_fn.
  - apply signs_requires_arguments, signs_do_start_cron_fn.
  - apply signs_requires_arguments, signs_do_kill_fn.
  - apply signs_requires_arguments, signs_do_update_fn.
  - apply signs_requires_arguments, signs_do_cancel_update_fn.
  - apply signs_requires_arguments, signs_do_set_quota_fn.
  - apply signs_requires_arguments, signs_do_status_fn.
  - apply signs_requires_arguments, signs_do_get_quota_fn.
  - intros s c1 r1 k1 c2 r2 k2 H1 H2 Hk1 Hk2.
    apply In_calls in H1; [|reflexivity]. apply In_calls in H2; [|reflexivity].
    destruct (do_update_calls w line s) as [H|(c & job & key & H)];
      rewrite H in *; [destruct H1|].
    rewrite (In_update_calls_key _ _ _ _ _ _ _ H1 Hk1).
    rewrite (In_update_calls_key _ _ _ _ _ _ _ H2 Hk2). reflexivity.
  - apply keyless_requires_arguments, keyless_do_status_fn.
  - apply keyless_requires_arguments, keyless_do_get_quota_fn.
  - intros h Hh s e k Hin Hk.
    assert (mints_what_it_passes (getuser w) (h line)) as Hm.
    { cbn [In] in Hh.
      repeat (destruct Hh as [<-|Hh]; [assumption|]). destruct Hh. }
    destruct (signed_before_In _ _ _ _ _ (Hm s) Hin Hk) as [[]|H]. exact H.
Qed.

(** C5 as stated fails twice over: the status command completes its call
    to the scheduler with no key signed at all, and the update command
    has one key signed and passes it to two calls to the scheduler. *)
Lemma C5_counterexample :
  let w := demo_world OK [] in
  let r := main w ["status"; "eng"; "hello"] (demo_options "localhost:1234") in
  let u := main w ["update"; "hello"; "hello.mesos"] (demo_options "localhost:1234") in
  let c := {| client_of := LocalSchedulerClient 1234 true |} in
  let job := {| name := "hello"; owner := {| role := "eng" |} |} in
  let key := {| user := "alice"; signature := 0 |} in
  outcome r = Return tt /\
  calls (emitted r) = [Rpc c (getTasksStatus (make_query "eng" "hello"))] /\
  sign_count (emitted r) = 0%nat /\
  outcome u = Return tt /\
  sign_count (emitted u) = 1%nat /\
  calls (emitted u) =
    [Rpc c (startUpdate job key);
     UpdaterUpdate "eng" "hello" (Some c) (Some "token-7") key job;
     Rpc c (finishUpdate "eng" "hello" SUCCESS (Some "token-7") key)].
Proof. repeat split; reflexivity. Qed.

(** ** QuotaManager *)

(** C2. When the CPU argument is not a float, or the RAM or the disk
    argument not an integer, set_quota logs the error 'Invalid value',
    goes on to resolve the client, and then stops on the first unbound
    variable: no call reaches the scheduler, and the handler does not
    return normally. *)
Theorem C2_set_quota_parse_error (w : World)
  (role cpu_str ram_mb_str disk_mb_str : string) (s : MesosCLI) :
  PyStr.py_float cpu_str = None \/ PyStr.py_int ram_mb_str = None \/
  PyStr.py_int disk_mb_str = None ->
  let r := do_set_quota_fn w [role; cpu_str; ram_mb_str; disk_mb_str] s in
  emitted r = Log ERROR MsgInvalidValue :: emitted (client w s) /\
  calls (emitted r) = [] /\
  returns r = false.
Proof.
  intros Hbad r. subst r. unfold do_set_quota_fn, bind, returns.
  cbn [try_assignments]. unfold float, int, attempt, bind.
  pose proof (plumbing_client w s) as Hc.
  destruct (PyStr.py_float cpu_str) as [x|];
    [destruct (PyStr.py_int ram_mb_str) as [n|];
     [destruct (PyStr.py_int disk_mb_str) as [d|];
      [destruct Hbad as [H|[H|H]]; discriminate H|]|]|];
    cbn; destruct (client w s) as [[[c|]|e] s1 t1]; cbn in *;
    rewrite ?app_nil_r; calls_simpl; auto.
Qed.

Lemma C2_witness :
  let r := do_set_quota_fn (demo_world OK []) ["eng"; "abc"; "4096"; "10240"]
             (init (demo_options "smf1")) in
  emitted r = Log ERROR MsgInvalidValue ::
              emitted (client (demo_world OK []) (init (demo_options "smf1"))) /\
  calls (emitted r) = [] /\
  returns r = false.
Proof.
  apply (C2_set_quota_parse_error (demo_world OK []) "eng" "abc" "4096" "10240").
  left. reflexivity.
Defined.

(** The run of the input the specification names, from the command
    line: the error is logged, the client is resolved, and the process
    ends on the unbound variable cpu. *)
Example set_quota_abc :
  main (demo_world OK []) ["set_quota"; "eng"; "abc"; "4096"; "10240"]
    (demo_options "localhost:1234") =
  {| outcome := Raise (UnboundLocalError "cpu");
     final := {| options := demo_options "localhost:1234";
                 _cluster := Some "localhost:1234";
                 _config := None;
                 _client := Some {| client_of := LocalSchedulerClient 1234 true |};
                 _proxy := None;
                 _scheduler := Some (LocalSchedulerClient 1234 true);
                 signed := 0 |};
     emitted := [Log ERROR MsgInvalidValue; ConstructScheduler; LocationProbe;
                 Log INFO (MsgLocation "corp"); Log INFO MsgLocalScheduler;
                 NewScheduler (LocalSchedulerClient 1234 true);
                 GetThriftClient (LocalSchedulerClient 1234 true)] |}.
Proof. reflexivity. Qed.

Lemma no_validation_of_plumbing {A} (m : M A) :
  emits_only is_plumbing m -> emits_only no_validation m.
Proof.
  apply emits_only_weaken. intros e H. unfold no_validation.
  rewrite (plumbing_not_validation e H). reflexivity.
Qed.
#[local] Hint Resolve no_validation_of_plumbing : runs.

(** The handler of get_quota never runs the validator, whatever the
    scheduler answers. *)
Lemma get_quota_never_validates w line s :
  filter is_validation (emitted (do_get_quota w line s)) = [].
Proof.
  apply (filter_none no_validation).
  - intros e. unfold no_validation. destruct (is_validation e); cbn; congruence.
  - revert s. change (emits_only no_validation (do_get_quota w line)).
    unfold do_get_quota, requires_arguments, do_get_quota_fn, rpc.
    emits_only_tac.
Qed.

(** C3, at the failing input: the scheduler answers get_quota with the
    code ERROR.  When the answer carries a quota the handler logs it and
    the process ends with status 0; when it carries none the handler
    stops on the missing quota.  In neither run is the validator line
    logged. *)
Theorem C3_get_quota_skips_validator :
  let r := main (demo_world (Failure "ERROR") []) ["get_quota"; "eng"]
             (demo_options "localhost:1234") in
  let r' := main refusing_world ["get_quota"; "eng"]
              (demo_options "localhost:1234") in
  let c := {| client_of := LocalSchedulerClient 1234 true |} in
  outcome r = Return tt /\
  exit_status r = 0 /\
  filter (fun e => is_call e || is_validation e) (emitted r) =
    [Rpc c (getQuota "eng")] /\
  In (Log INFO (MsgQuota "eng" demo_quota)) (emitted r) /\
  outcome r' = Raise AttributeError /\
  filter (fun e => is_call e || is_validation e) (emitted r') =
    [Rpc c (getQuota "eng")].
Proof.
  repeat split; try reflexivity.
  vm_compute. repeat (first [left; reflexivity | right]).
Qed.

(** The sibling: set_quota with the same answer runs the validator and
    exits with status 1. *)
Example set_quota_validates :
  let r := main (demo_world (Failure "ERROR") [])
             ["set_quota"; "eng"; "8.0"; "4096"; "10240"]
             (demo_options "localhost:1234") in
  filter is_validation (emitted r) = [Log INFO (MsgResponse "ERROR" "done")] /\
  exit_status r = 1.
Proof. split; reflexivity. Qed.

(** ** TaskStatusReporter *)

Lemma is_active_status t : is_active t = active_status (status t).
Proof. unfold is_active. destruct (status t); reflexivity. Qed.

Lemma print_tasks_run ts : forall s,
  Forall has_task_info ts ->
  print_tasks ts s =
  {| outcome := Return tt; final := s; emitted := flat_map task_line ts |}.
Proof.
  induction ts as [|t ts IH]; intros s Hall; [reflexivity|].
  inversion Hall as [|? ? Ht Hts]; subst.
  cbn [print_tasks flat_map]. unfold bind, print_task, task_line.
  unfold has_task_info in Ht.
  destruct (task (assignedTask t)) as [ti|]; [|congruence].
  cbn. rewrite (IH s Hts). reflexivity.
Qed.

Lemma Forall_filter {A} (P : A -> Prop) (f : A -> bool) (l : list A) :
  Forall P l -> Forall P (filter f l).
Proof. intros H. eapply incl_Forall; [apply incl_filter | exact H]. Qed.

(** When the status query is answered OK with a list of tasks that all
    carry their task information, the handler logs, after the validator
    line, exactly the report of the specification: for a non-empty list
    the ACTIVE header and the PENDING, STARTING and RUNNING tasks in
    their original order, then the INACTIVE header and all other tasks
    in their original order; for the empty list the no-tasks message
    alone. *)
Lemma status_report_with_task_info (w : World) (role job : string)
  (s s1 : MesosCLI) (c : Client) (t : list event) :
  let resp := scheduler_rpc w c (getTasksStatus (make_query role job)) in
  client w s = {| outcome := Return (Some c); final := s1; emitted := t |} ->
  responseCode resp = OK ->
  Forall has_task_info (tasks resp) ->
  do_status_fn w [role; job] s =
  {| outcome := Return tt;
     final := s1;
     emitted := (Log INFO MsgFetching :: t ++
                 Rpc c (getTasksStatus (make_query role job)) ::
                 Log INFO (MsgResponse "OK" (message resp)) ::
                 report_spec (tasks resp))%list |}.
Proof.
  intros resp Hc Hok Hall.
  unfold do_status_fn, bind. cbn. rewrite Hc. cbn.
  unfold rpc, check_and_log_response. cbn. fold resp. rewrite Hok. cbn.
  unfold report_spec.
  destruct (tasks resp) as [|t0 ts] eqn:Et; [reflexivity|].
  rewrite !print_tasks_run by (apply Forall_filter; exact Hall).
  rewrite (filter_ext is_active (fun t => active_status (status t)))
    by apply is_active_status.
  rewrite (filter_ext (fun x => negb (is_active x))
             (fun t => negb (active_status (status t))))
    by (intros x; rewrite is_active_status; reflexivity).
  cbn. rewrite ?app_nil_r. reflexivity.
Qed.

Example status_report_of_the_demo_tasks :
  let w := demo_world OK [] in
  let s := init (demo_options "localhost:1234") in
  let c := {| client_of := LocalSchedulerClient 1234 true |} in
  let resp := scheduler_rpc w c (getTasksStatus (make_query "eng" "hello")) in
  do_status_fn w ["eng"; "hello"] s =
  {| outcome := Return tt;
     final := final (client w s);
     emitted := (Log INFO MsgFetching :: emitted (client w s) ++
                 Rpc c (getTasksStatus (make_query "eng" "hello")) ::
                 Log INFO (MsgResponse "OK" (message resp)) ::
                 report_spec (tasks resp))%list |}.
Proof.
  apply (status_report_with_task_info (demo_world OK []) "eng" "hello"
           (init (demo_options "localhost:1234"))
           (final (client (demo_world OK []) (init (demo_options "localhost:1234"))))
           {| client_of := LocalSchedulerClient 1234 true |}
           (emitted (client (demo_world OK []) (init (demo_options "localhost:1234"))))).
  - reflexivity.
  - reflexivity.
  - repeat constructor; discriminate.
Qed.

(** C9, at the failing input: the scheduler answers the status query OK
    with three tasks, RUNNING, PENDING and FINISHED in that order, of
    which the second has no task information (its assignedTask.task is
    None).  The handler logs the ACTIVE header and the line of the
    first task and then stops with AttributeError, on
    taskInfo.maxTaskFailures in print_task, which had just tested
    taskInfo.  The second active task, the INACTIVE header and the
    FINISHED task, which has its information, are never printed, so the
    list is not reported in two blocks; the process ends on the
    uncaught exception. *)
Theorem C9_report_stops_at_missing_info :
  let w := partial_world in
  let s := init (demo_options "localhost:1234") in
  let c := {| client_of := LocalSchedulerClient 1234 true |} in
  let query := getTasksStatus (make_query "eng" "hello") in
  let resp := scheduler_rpc w c query in
  let r := do_status w "eng hello" s in
  responseCode resp = OK /\
  tasks resp = [demo_task 0 RUNNING; bare_task PENDING; demo_task 2 FINISHED] /\
  outcome r = Raise AttributeError /\
  emitted r =
    (Log INFO MsgFetching :: emitted (client w s) ++
     Rpc c query :: Log INFO (MsgResponse "OK" (message resp)) ::
     Log INFO (MsgActiveTasks 2) :: task_line (demo_task 0 RUNNING))%list /\
  report_spec (tasks resp) =
    (Log INFO (MsgActiveTasks 2) :: task_line (demo_task 0 RUNNING) ++
     Log INFO (MsgInactiveTasks 1) :: task_line (demo_task 2 FINISHED))%list /\
  (forall n, ~ In (Log INFO (MsgInactiveTasks n)) (emitted r)) /\
  (forall l, In l (task_line (demo_task 2 FINISHED)) -> ~ In l (emitted r)) /\
  outcome (main w ["status"; "eng"; "hello"] (demo_options "localhost:1234")) =
    Raise AttributeError.
Proof.
  cbv zeta.
  repeat match goal with |- _ /\ _ => split end; try reflexivity.
  - intros n Hin. vm_compute in Hin.
    repeat (destruct Hin as [Hin|Hin]; [discriminate Hin|]). exact Hin.
  - intros l Hl Hin. vm_compute in Hl. destruct Hl as [<-|[]].
    vm_compute in Hin.
    repeat (destruct Hin as [Hin|Hin]; [discriminate Hin|]). exact Hin.
Qed.

(** The report of the four tasks PENDING, FINISHED, RUNNING, LOST. *)
Example report_four :
  report_spec [demo_task 0 PENDING; demo_task 1 FINISHED;
               demo_task 2 RUNNING; demo_task 3 LOST] =
  (Log INFO (MsgActiveTasks 2) ::
   task_line (demo_task 0 PENDING) ++ task_line (demo_task 2 RUNNING) ++
   Log INFO (MsgInactiveTasks 2) ::
   task_line (demo_task 1 FINISHED) ++ task_line (demo_task 3 LOST))%list.
Proof. reflexivity. Qed.

Example report_empty : report_spec [] = [Log INFO MsgNoTasks].
Proof. reflexivity. Qed.

(** A task without task information ends the listing: print_task
    passes its own test of taskInfo and then reads maxTaskFailures
    from it. *)
Example print_task_without_info :
  print_tasks
    [{| assignedTask := {| task := None; assignedPorts := []; slaveHost := "slave1" |};
        status := RUNNING; failureCount := 0 |}]
    (init (demo_options "smf1")) =
  {| outcome := Raise AttributeError; final := init (demo_options "smf1");
     emitted := [] |}.
Proof. reflexivity. Qed.

(** * Further properties of the client *)

(** ** More on the string primitives *)

Lemma find_from_range s : forall i,
  PyStr.find_from ":" s i = -1 \/ i <= PyStr.find_from ":" s i.
Proof.
  induction s as [|a s IH]; intros i.
  - left. reflexivity.
  - unfold PyStr.find_from; fold PyStr.find_from.
    rewrite PyStrFacts.prefix_colon.
    destruct (Ascii.eqb a ":"); [right; lia|].
    destruct (IH (i + 1)) as [H|H]; [left; exact H | right; lia].
Qed.

Lemma split_no_colon s : forall i,
  0 <= i -> PyStr.find_from ":" s i = -1 -> PyStr.split ":" s = [s].
Proof.
  induction s as [|a s IH]; intros i Hi H; [reflexivity|].
  unfold PyStr.find_from in H; fold PyStr.find_from in H.
  rewrite PyStrFacts.prefix_colon in H.
  unfold PyStr.split; fold PyStr.split.
  destruct (Ascii.eqb a ":"); [lia|].
  rewrite (IH (i + 1)); [reflexivity | lia | exact H].
Qed.

Lemma find_false_split c :
  (PyStr.find c ":" >? -1) = false -> PyStr.split ":" c = [c].
Proof.
  intros H. apply (split_no_colon c 0); [lia|].
  unfold PyStr.find in H. destruct (find_from_range c 0) as [E|E]; [exact E|].
  assert ((PyStr.find_from ":" c 0 >? -1) = true) by (apply Z.gtb_lt; lia).
  congruence.
Qed.

Lemma find_from_found s : forall i,
  0 <= i -> i <= PyStr.find_from ":" s i ->
  (2 <= length (PyStr.split ":" s))%nat.
Proof.
  induction s as [|a s IH]; intros i Hi H.
  - cbn in H. lia.
  - unfold PyStr.find_from in H; fold PyStr.find_from in H.
    rewrite PyStrFacts.prefix_colon in H.
    unfold PyStr.split; fold PyStr.split.
    destruct (Ascii.eqb a ":").
    + pose proof (PyStrFacts.split_nonempty s).
      destruct (PyStr.split ":" s); [congruence | simpl; lia].
    + assert (2 <= length (PyStr.split ":" s))%nat as H'.
      { apply (IH (i + 1)); [lia|].
        destruct (find_from_range s (i + 1)) as [E|E]; lia. }
      destruct (PyStr.split ":" s); simpl in *; lia.
Qed.

Lemma find_true_split c :
  (PyStr.find c ":" >? -1) = true -> (2 <= length (PyStr.split ":" c))%nat.
Proof.
  intros H. apply Z.gtb_lt in H. unfold PyStr.find in H.
  apply (find_from_found c 0); lia.
Qed.

(** ** The validator and cluster resolution *)

Lemma assert_valid_cluster_run w oc s :
  returns (assert_valid_cluster w oc s) = valid_cluster w oc /\
  final (assert_valid_cluster w oc s) = s /\
  (returns (assert_valid_cluster w oc s) = true ->
   emitted (assert_valid_cluster w oc s) = []).
Proof.
  unfold assert_valid_cluster, valid_cluster, returns.
  destruct oc as [[|a c]|]; try (cbn; repeat split; discriminate).
  set (cl := String a c).
  change (PyStr.truthy (Some cl)) with true. cbn.
  destruct (PyStr.find cl ":" >? -1) eqn:Ef.
  - apply find_true_split in Ef.
    destruct (PyStr.split ":" cl) as [|s0 [|s1 [|s2 rest]]] eqn:Es;
      simpl in Ef; try lia; cbn; unfold assert_exists.
    + destruct (String.eqb s0 "localhost"), (cluster_exists w s0); cbn;
        unfold try_except_ValueError, attempt, bind, int;
        destruct (PyStr.py_int s1); cbn;
        repeat split; try reflexivity; discriminate.
    + destruct (String.eqb s0 "localhost"), (cluster_exists w s0); cbn;
        repeat split; try reflexivity; discriminate.
  - rewrite (find_false_split cl Ef). unfold assert_exists.
    destruct (cluster_exists w cl); cbn;
      repeat split; try reflexivity; discriminate.
Qed.

(** X1. The validator returns exactly on the strings [valid_cluster]
    describes, never changes the object, and emits nothing when it
    returns. *)
Theorem validator_accepts_valid_clusters (w : World) (cluster : option string)
  (s : MesosCLI) :
  let r := assert_valid_cluster w cluster s in
  returns r = valid_cluster w cluster /\
  final r = s /\
  (returns r = true -> emitted r = []).
Proof. exact (assert_valid_cluster_run w cluster s). Qed.

(** A port that is not a number is fatal even for localhost, through
    _die: one FATAL line and SystemExit(1). *)
Lemma bad_port_dies w name port s :
  PyStr.split ":" (name ++ ":" ++ port) = [name; port] ->
  (String.eqb name "localhost" || cluster_exists w name) = true ->
  PyStr.py_int port = None ->
  assert_valid_cluster w (Some (name ++ ":" ++ port)) s =
  {| outcome := Raise (SystemExit 1); final := s;
     emitted := [Log FATAL (MsgInvalidCluster (name ++ ":" ++ port))] |}.
Proof.
  intros Hs Hn Hp. unfold assert_valid_cluster.
  assert (name ++ ":" ++ port <> "") as Hne.
  { intros E. rewrite E in Hs. discriminate Hs. }
  rewrite (truthy_nonempty _ Hne). cbn.
  rewrite PyStrFacts.find_colon_split by (rewrite Hs; simpl; lia).
  rewrite Hs. cbn. unfold assert_exists.
  destruct (String.eqb name "localhost"); cbn;
    [|cbn in Hn; rewrite Hn; cbn];
    unfold try_except_ValueError, attempt, bind, int; rewrite Hp; reflexivity.
Qed.

Lemma existsb_none (p : event -> bool) (t : list event) :
  forallb (fun e => negb (p e)) t = true -> existsb p t = false.
Proof.
  induction t as [|e t IH]; cbn; [reflexivity|].
  intros H. apply andb_true_iff in H as [He Ht].
  apply negb_true_iff in He. rewrite He, (IH Ht). reflexivity.
Qed.

Lemma validator_logs_no_error w c :
  emits_only (fun e => negb (is_error_log e)) (assert_valid_cluster w c).
Proof. unfold assert_valid_cluster, assert_exists. emits_only_tac. Qed.

Lemma get_cluster_run w cmd cfg s :
  let chosen := PyStr.py_or cmd cfg in
  let r := get_cluster w cmd cfg s in
  returns r = valid_cluster w chosen /\
  final r = s /\
  (returns r = true -> outcome r = Return chosen) /\
  existsb is_error_log (emitted r) =
    PyStr.truthy cfg && PyStr.truthy cmd && PyStr.differ cfg cmd.
Proof.
  intros chosen r. subst r. unfold get_cluster. fold chosen.
  destruct (assert_valid_cluster_run w chosen s) as (H1 & H2 & H3).
  pose proof (existsb_none _ _ (validator_logs_no_error w chosen s)) as H4.
  unfold bind, when, returns in *.
  destruct (PyStr.truthy cfg && PyStr.truthy cmd && PyStr.differ cfg cmd); cbn;
    destruct (assert_valid_cluster w chosen s) as [[[]|e] s1 t1];
    cbn in *; subst; rewrite ?app_nil_r;
    repeat split; auto; discriminate.
Qed.

(** X2. get_cluster goes by the command-line cluster when one is given
    and by the configuration's otherwise: it returns exactly when that
    string is valid, and then returns that string; it never changes the
    object; and it logs at ERROR level exactly when both are given and
    differ. *)
Theorem get_cluster_resolution (w : World) (cmd cfg : option string)
  (s : MesosCLI) :
  let chosen := if PyStr.truthy cmd then cmd else cfg in
  let r := get_cluster w cmd cfg s in
  returns r = valid_cluster w chosen /\
  final r = s /\
  (returns r = true -> outcome r = Return chosen) /\
  existsb is_error_log (emitted r) =
    PyStr.truthy cfg && PyStr.truthy cmd && PyStr.differ cfg cmd.
Proof. exact (get_cluster_run w cmd cfg s). Qed.

(** X3. With no cluster on the command line and none in the
    configuration, resolution stops at the assertion 'Cluster not
    specified!' before anything is logged or looked up. *)
Theorem no_cluster_is_an_assertion (w : World) (cmd cfg : option string)
  (s : MesosCLI) :
  PyStr.truthy cmd = false -> PyStr.truthy cfg = false ->
  get_cluster w cmd cfg s =
  {| outcome := Raise (AssertionError "Cluster not specified!");
     final := s; emitted := [] |}.
Proof.
  intros Hcmd Hcfg. unfold get_cluster, PyStr.py_or, assert_valid_cluster.
  rewrite Hcmd, Hcfg. cbn. rewrite ?Hcfg. reflexivity.
Qed.

Lemma no_cluster_witness :
  get_cluster (demo_world OK []) None (Some "") (init (demo_options "")) =
  {| outcome := Raise (AssertionError "Cluster not specified!");
     final := init (demo_options ""); emitted := [] |}.
Proof.
  apply (no_cluster_is_an_assertion (demo_world OK []) None (Some ""));
    reflexivity.
Defined.

(** ** Routing *)

Lemma find_from_bounds sub s : forall i,
  PyStr.find_from sub s i = -1 \/ i <= PyStr.find_from sub s i.
Proof.
  induction s as [|a s IH]; intros i;
    unfold PyStr.find_from; fold PyStr.find_from.
  - destruct (String.prefix sub ""); [right; lia | left; reflexivity].
  - destruct (String.prefix sub (String a s)); [right; lia|].
    destruct (IH (i + 1)) as [H|H]; [left; exact H | right; lia].
Qed.

Lemma find_zero_prefix sub c :
  PyStr.find c sub = 0 -> String.prefix sub c = true.
Proof.
  unfold PyStr.find. destruct c as [|a c];
    unfold PyStr.find_from; fold PyStr.find_from.
  - destruct (String.prefix sub ""); [reflexivity | discriminate].
  - destruct (String.prefix sub (String a c)); [reflexivity|].
    destruct (find_from_bounds sub c (0 + 1)) as [H|H]; lia.
Qed.

Lemma prefix_cons a s1 b s2 :
  String.prefix (String a s1) (String b s2) = true ->
  a = b /\ String.prefix s1 s2 = true.
Proof.
  cbn [String.prefix]. destruct (Ascii.ascii_dec a b); [auto | discriminate].
Qed.

Lemma prefix_localhost c :
  String.prefix "localhost:" c = true -> exists p, c = "localhost:" ++ p.
Proof.
  intros H.
  repeat match type of H with
         | String.prefix (String _ _) ?c = true =>
             destruct c as [|? c]; [discriminate H|];
             apply prefix_cons in H as [<- H]
         end.
  exists c. reflexivity.
Qed.

(** A string that starts with localhost: has a colon. *)
Lemma localhost_has_colon c :
  PyStr.find c "localhost:" = 0 -> (PyStr.find c ":" >? -1) = true.
Proof.
  intros H. apply find_zero_prefix, prefix_localhost in H as [p ->].
  apply PyStrFacts.find_colon_split. rewrite PyStrFacts.split_localhost.
  pose proof (PyStrFacts.split_nonempty p).
  destruct (PyStr.split ":" p); [congruence | simpl; lia].
Qed.

Ltac route_cases w c :=
  unfold get_scheduler_client, Location_is_prod, Location_is_corp,
    TunnelHelper_get_tunnel_host; cbn;
  destruct (PyStr.find c "localhost:" =? 0) eqn:?Hlocal; cbn;
  [ destruct (PyStr.split ":" c) as [|?s0 [|?s1 ?rest]] eqn:?Hsplit; cbn;
    unfold int;
    try match goal with
        | |- context [PyStr.py_int ?p] => destruct (PyStr.py_int p) eqn:?Hint; cbn
        end
  | destruct (PyStr.find c ":" >? -1) eqn:?Hcolon; cbn;
    [ destruct (PyStr.split ":" c) as [|?s0 [|?s1 [|?s2 ?rest]]] eqn:?Hsplit;
      cbn; unfold int;
      try match goal with
          | |- context [PyStr.py_int ?p] =>
              destruct (PyStr.py_int p) eqn:?Hint; cbn
          end
    | ];
    try match goal with
        | |- context [String.eqb ?n "angrybird-local"] =>
            destruct (String.eqb n "angrybird-local") eqn:?Hangry; cbn;
            [ | destruct (is_corp w) eqn:?Hcorp; cbn;
                [ destruct (get_tunnel_host w n) eqn:?Htunnel; cbn | ] ]
        end ].

(** X4. Whatever get_scheduler_client returns is consistent: a local
    scheduler client comes with no tunnel host; a discovery client is
    told not to tunnel exactly when no tunnel host is returned beside
    it, and carries the caller's verbosity; both use SSL; and the object
    is left as it was. *)
Theorem scheduler_client_shape (w : World) (c : string) (verbose : bool)
  (s : MesosCLI) (host : option string) (sch : Scheduler) :
  outcome (get_scheduler_client w (Some c) verbose s) = Return (host, sch) ->
  final (get_scheduler_client w (Some c) verbose s) = s /\
  match sch with
  | LocalSchedulerClient _ ssl => ssl = true /\ host = None
  | ZookeeperSchedulerClient _ _ force_notunnel ssl v =>
      ssl = true /\ v = verbose /\
      force_notunnel = match host with
                       | None => true
                       | Some _ => false
                       end
  end.
Proof.
  route_cases w c; intros H; try discriminate H;
    injection H as <- <-; auto.
Qed.

Lemma scheduler_client_shape_witness :
  final (get_scheduler_client (demo_world OK []) (Some "smf1:2181") true
           (init (demo_options "smf1:2181"))) = init (demo_options "smf1:2181") /\
  match ZookeeperSchedulerClient "smf1" 2181 false true true with
  | LocalSchedulerClient _ ssl => ssl = true /\ Some "tunnel1" = None
  | ZookeeperSchedulerClient _ _ force_notunnel ssl v =>
      ssl = true /\ v = true /\ force_notunnel = false
  end.
Proof.
  apply (scheduler_client_shape (demo_world OK []) "smf1:2181" true
           (init (demo_options "smf1:2181")) (Some "tunnel1")
           (ZookeeperSchedulerClient "smf1" 2181 false true true)).
  reflexivity.
Defined.

(** X5. Outside the corporate network, and for the cluster
    angrybird-local anywhere, routing never asks for a tunnel host and
    never returns one. *)
Theorem no_tunnel_outside_corp (w : World) (c : string) (verbose : bool)
  (s : MesosCLI) :
  is_corp w = false \/ hd "" (PyStr.split ":" c) = "angrybird-local" ->
  let r := get_scheduler_client w (Some c) verbose s in
  existsb is_tunnel_lookup (emitted r) = false /\
  match outcome r with
  | Return (host, _) => host = None
  | Raise _ => True
  end.
Proof.
  intros Hno r. subst r.
  route_cases w c; auto;
    try rewrite (find_false_split c Hcolon) in Hno; cbn in Hno;
    destruct Hno as [Hno|Hno]; try congruence;
    subst; rewrite String.eqb_refl in Hangry; discriminate.
Qed.

Lemma no_tunnel_outside_corp_witness :
  let r := get_scheduler_client (demo_world OK []) (Some "angrybird-local:2181")
             false (init (demo_options "angrybird-local:2181")) in
  existsb is_tunnel_lookup (emitted r) = false /\
  match outcome r with
  | Return (host, _) => host = None
  | Raise _ => True
  end.
Proof.
  apply (no_tunnel_outside_corp (demo_world OK []) "angrybird-local:2181").
  right. reflexivity.
Defined.

(** X6. A cluster string without a colon always routes, to a discovery
    client for that name at the default port 2181; the tunnel host is
    the one looked up, and only inside the corporate network and for a
    name other than angrybird-local. *)
Theorem bare_name_routes_to_default_port (w : World) (c : string)
  (verbose : bool) (s : MesosCLI) :
  (PyStr.find c ":" >? -1) = false ->
  let host := if String.eqb c "angrybird-local" then None
              else if is_corp w then get_tunnel_host w c else None in
  outcome (get_scheduler_client w (Some c) verbose s) =
  Return (host,
          ZookeeperSchedulerClient c 2181
            match host with
            | None => true
            | Some _ => false
            end true verbose).
Proof.
  intros Hbare host. subst host.
  route_cases w c; try congruence; try reflexivity;
    apply Z.eqb_eq, localhost_has_colon in Hlocal; congruence.
Qed.

Lemma bare_name_witness :
  outcome (get_scheduler_client (demo_world OK []) (Some "smf1") false
             (init (demo_options "smf1"))) =
  Return (Some "tunnel1", ZookeeperSchedulerClient "smf1" 2181 false true false).
Proof.
  apply (bare_name_routes_to_default_port (demo_world OK []) "smf1" false
           (init (demo_options "smf1"))).
  reflexivity.
Defined.

(** ** The session *)

Lemma stateless_ret {A} (a : A) : stateless (ret a).
Proof. intros s. reflexivity. Qed.

Lemma stateless_raise {A} (e : exn) : stateless (@raise A e).
Proof. intros s. reflexivity. Qed.

Lemma stateless_get {A} (f : MesosCLI -> A) : stateless (get f).
Proof. intros s. reflexivity. Qed.

Lemma stateless_emit e : stateless (emit e).
Proof. intros s. reflexivity. Qed.

Lemma stateless_bind {A B} (m : M A) (f : A -> M B) :
  stateless m -> (forall a, stateless (f a)) -> stateless (bind m f).
Proof.
  intros Hm Hf s. unfold bind. specialize (Hm s).
  destruct (m s) as [[a|e] s1 t1]; cbn in *; [|exact Hm].
  specialize (Hf a s1). destruct (f a s1) as [o s2 t2]. cbn in *. congruence.
Qed.

Lemma stateless_attempt {A} (m : M A) : stateless m -> stateless (attempt m).
Proof.
  intros Hm s. unfold attempt. specialize (Hm s).
  destruct (m s) as [o s1 t1]. exact Hm.
Qed.

Ltac stateless_step :=
  match goal with
  | |- stateless (bind _ _) => apply stateless_bind; [|intros]
  | |- stateless (ret _) => apply stateless_ret
  | |- stateless (raise _) => apply stateless_raise
  | |- stateless (get _) => apply stateless_get
  | |- stateless (emit _) => apply stateless_emit
  | |- stateless (log _ _) => apply stateless_emit
  | |- stateless (attempt _) => apply stateless_attempt
  | |- stateless (when _ _) => unfold when
  | |- stateless (assert _ _) => unfold assert
  | |- stateless (attr _) => unfold attr
  | |- stateless (item _ _) => unfold item
  | |- stateless (int _) => unfold int
  | |- stateless (_die _) => unfold _die
  | |- stateless (try_except_ValueError _ _) => unfold try_except_ValueError
  | |- stateless (match ?x with _ => _ end) => destruct x
  end.

Lemma stateless_get_scheduler_client w c v :
  stateless (get_scheduler_client w c v).
Proof.
  unfold get_scheduler_client, Location_is_prod, Location_is_corp,
    TunnelHelper_get_tunnel_host.
  repeat stateless_step.
Qed.

Lemma valid_cluster_truthy w c : valid_cluster w c = true -> PyStr.truthy c = true.
Proof.
  unfold valid_cluster. destruct c as [c|]; [|discriminate].
  intros H. apply andb_true_iff in H as [H _]. exact H.
Qed.

Lemma construct_run w cfg s :
  let chosen := PyStr.py_or (opt_cluster (options s))
                  match cfg with
                  | Some c => config_cluster c
                  | None => None
                  end in
  let r := _construct_scheduler w cfg s in
  options (final r) = options s /\
  _config (final r) = _config s /\
  signed (final r) = signed s /\
  (coherent s -> coherent (final r)) /\
  (returns r = true ->
   valid_cluster w chosen = true /\
   _cluster (final r) = chosen /\
   exists host sch c,
     outcome (get_scheduler_client w chosen (opt_verbose (options s))
                (set_cluster chosen s)) = Return (host, sch) /\
     _proxy (final r) = host /\
     _scheduler (final r) = Some sch /\
     get_thrift_client w sch = Some c /\
     _client (final r) = Some c).
Proof.
  intros chosen r. subst r. unfold _construct_scheduler, bind. cbn.
  destruct (get_cluster_run w (opt_cluster (options s))
              match cfg with Some c => config_cluster c | None => None end s)
    as (G1 & G2 & G3 & _).
  fold chosen in G1, G3. unfold returns in *.
  destruct (get_cluster w _ _ s) as [[cl|e] s1 t1]; cbn in *; subst s1;
    [|repeat split; auto; discriminate].
  specialize (G3 eq_refl). injection G3 as ->.
  symmetry in G1. pose proof (valid_cluster_truthy w chosen G1) as Ht.
  pose proof (stateless_get_scheduler_client w chosen (opt_verbose (options s))
                (set_cluster chosen s)) as Hst.
  destruct (get_scheduler_client w chosen (opt_verbose (options s))
              (set_cluster chosen s)) as [[[host sch]|e] s2 t2];
    cbn in *; subst s2;
    [|repeat split; auto; try discriminate; intros _ _; exact Ht].
  destruct (get_thrift_client w sch) as [c|] eqn:Ec; cbn;
    repeat split; auto; try discriminate; try (intros _ _; exact Ht).
  exists host, sch, c. auto.
Qed.

(** X7. When _construct_scheduler returns, the session is filled: the
    cluster is the command-line one when given and the configuration's
    otherwise, and it is valid; proxy and scheduler are what routing
    returned for it; the client is the scheduler's Thrift client.  The
    options, the configuration and the count of signed keys are
    untouched. *)
Theorem construct_fills_the_session (w : World) (cfg : option ProxyConfig)
  (s : MesosCLI) :
  let chosen := PyStr.py_or (opt_cluster (options s))
                  match cfg with
                  | Some c => config_cluster c
                  | None => None
                  end in
  let r := _construct_scheduler w cfg s in
  returns r = true ->
  options (final r) = options s /\
  _config (final r) = _config s /\
  signed (final r) = signed s /\
  valid_cluster w chosen = true /\
  _cluster (final r) = chosen /\
  exists host sch c,
    outcome (get_scheduler_client w chosen (opt_verbose (options s))
               (set_cluster chosen s)) = Return (host, sch) /\
    _proxy (final r) = host /\
    _scheduler (final r) = Some sch /\
    get_thrift_client w sch = Some c /\
    _client (final r) = Some c.
Proof.
  intros chosen r Hret.
  destruct (construct_run w cfg s) as (H1 & H2 & H3 & _ & H5).
  destruct (H5 Hret) as (H6 & H7 & H8). auto 10.
Qed.

Lemma construct_fills_the_session_witness :
  let w := demo_world OK [] in
  let s := init (demo_options "smf1:2181") in
  let r := _construct_scheduler w None s in
  options (final r) = options s /\
  _config (final r) = _config s /\
  signed (final r) = signed s /\
  valid_cluster w (Some "smf1:2181") = true /\
  _cluster (final r) = Some "smf1:2181" /\
  exists host sch c,
    outcome (get_scheduler_client w (Some "smf1:2181") false
               (set_cluster (Some "smf1:2181") s)) = Return (host, sch) /\
    _proxy (final r) = host /\
    _scheduler (final r) = Some sch /\
    get_thrift_client w sch = Some c /\
    _client (final r) = Some c.
Proof.
  apply (construct_fills_the_session (demo_world OK []) None
           (init (demo_options "smf1:2181"))).
  reflexivity.
Defined.

Lemma client_access w s :
  coherent s ->
  let r := client w s in
  coherent (final r) /\
  (returns r = true ->
   exists c, outcome r = Return (Some c) /\ _client (final r) = Some c /\
             PyStr.truthy (_cluster (final r)) = true).
Proof.
  intros Hco r. subst r. unfold client, bind, returns. cbn.
  destruct (_client s) as [c|] eqn:Ec; cbn.
  - rewrite Ec. split; [exact Hco|]. intros _. exists c.
    repeat split; auto. apply Hco. congruence.
  - destruct (construct_run w (_config s) s) as (_ & _ & _ & H4 & H5).
    unfold returns in H5.
    destruct (_construct_scheduler w (_config s) s) as [[[]|e] s1 t1];
      cbn in *; [|split; [auto | discriminate]].
    destruct (H5 eq_refl) as (Hv & Hcl & host & sch & c & _ & _ & _ & _ & Hc).
    split; [auto|]. intros _. exists c. rewrite Hc, Hcl.
    repeat split; auto. eapply valid_cluster_truthy, Hv.
Qed.

(** X8. From a coherent object (a new one is), a client() access that
    returns returns a client, and from then on client() and cluster()
    answer from the cache: they emit nothing and leave the object
    alone. *)
Theorem client_access_is_cached (w : World) (s : MesosCLI) :
  coherent s ->
  returns (client w s) = true ->
  let s1 := final (client w s) in
  exists c,
    outcome (client w s) = Return (Some c) /\
    client w s1 = {| outcome := Return (Some c); final := s1; emitted := [] |} /\
    cluster w s1 = {| outcome := Return (_cluster s1); final := s1;
                      emitted := [] |}.
Proof.
  intros Hco Hret s1. subst s1.
  destruct (client_access w s Hco) as [_ H].
  destruct (H Hret) as (c & Ho & Hc & Hcl).
  exists c. repeat split; [exact Ho | apply client_cached, Hc |
                           apply cluster_cached, Hcl].
Qed.

Lemma client_access_is_cached_witness :
  let w := demo_world OK [] in
  let s1 := final (client w (init (demo_options "localhost:1234"))) in
  exists c,
    outcome (client w (init (demo_options "localhost:1234"))) = Return (Some c) /\
    client w s1 = {| outcome := Return (Some c); final := s1; emitted := [] |} /\
    cluster w s1 = {| outcome := Return (_cluster s1); final := s1;
                      emitted := [] |}.
Proof.
  apply (client_access_is_cached (demo_world OK [])
           (init (demo_options "localhost:1234"))).
  - intros H. exfalso. apply H. reflexivity.
  - reflexivity.
Defined.

(** X9. Loading a configuration and reading it back: after
    get_and_set_config returns a job, config() returns the configuration
    the loader produced (from_thermos for a path ending in .thermos,
    from_mesos otherwise), whose job is that job, and emits nothing. *)
Theorem config_after_load (w : World) (job path : string) (s : MesosCLI)
  (j : JobConfiguration) :
  outcome (get_and_set_config w job path s) = Return j ->
  let s1 := final (get_and_set_config w job path s) in
  exists cfg,
    config s1 = {| outcome := Return cfg; final := s1; emitted := [] |} /\
    config_job cfg = j /\
    (if PyStr.endswith path ".thermos" then from_thermos w path job
     else from_mesos w path job) = Return cfg.
Proof.
  unfold get_and_set_config, bind. cbn.
  destruct (if PyStr.endswith path ".thermos" then from_thermos w path job
            else from_mesos w path job) as [cfg|e]; cbn; intros H;
    [|discriminate].
  injection H as <-. exists cfg. auto.
Qed.

Lemma config_after_load_witness :
  let w := demo_world OK [] in
  let s1 := final (get_and_set_config w "hello" "hello.mesos"
                     (init (demo_options "smf1"))) in
  exists cfg,
    config s1 = {| outcome := Return cfg; final := s1; emitted := [] |} /\
    config_job cfg = {| name := "hello"; owner := {| role := "eng" |} |} /\
    (if PyStr.endswith "hello.mesos" ".thermos"
     then from_thermos w "hello.mesos" "hello"
     else from_mesos w "hello.mesos" "hello") = Return cfg.
Proof.
  apply (config_after_load (demo_world OK []) "hello" "hello.mesos"
           (init (demo_options "smf1"))).
  reflexivity.
Defined.

(** ** Copying the application *)

(** X10. Without a target HDFS path, or when the source file does not
    exist, the copy stops at an assertion before it has run any
    sub-process, probed anything or logged anything. *)
Theorem copy_checks_before_acting (w : World) (user src : string)
  (path cluster proxy_host : option string) (s : MesosCLI) :
  path = None \/ path_exists w (expanduser w src) = false ->
  exists text,
    copy_app_to_hadoop w user src path cluster proxy_host s =
    {| outcome := Raise (AssertionError text); final := s; emitted := [] |}.
Proof.
  intros H. unfold copy_app_to_hadoop.
  destruct path as [p|]; [|eexists; reflexivity].
  destruct H as [H|H]; [discriminate|].
  unfold copy_to_hadoop. cbn. rewrite H. eexists. reflexivity.
Qed.

Lemma copy_checks_before_acting_witness :
  exists text,
    copy_app_to_hadoop (demo_world OK []) "eng" "hello.zip" None
      (Some "smf1") (Some "tunnel1") (init (demo_options "smf1")) =
    {| outcome := Raise (AssertionError text);
       final := init (demo_options "smf1"); emitted := [] |}.
Proof.
  apply (copy_checks_before_acting (demo_world OK []) "eng" "hello.zip" None).
  left. reflexivity.
Defined.

Lemma tunnel_check_call w user h cmd :
  emits_only (through_tunnel user h) (check_call w cmd (Some h) user).
Proof.
  unfold check_call, subprocess_check_call, subprocess_call_, ssh_argv.
  apply emits_only_bind; [|intros; emits_only_tac].
  apply emits_only_bind; [|intros; emits_only_tac].
  apply emits_only_emit. cbn. apply String.eqb_refl.
Qed.

Lemma tunnel_call w user h cmd :
  emits_only (through_tunnel user h) (call w cmd (Some h) user).
Proof.
  unfold call, subprocess_call_, ssh_argv.
  apply emits_only_bind; [|intros; emits_only_tac].
  apply emits_only_emit. cbn. apply String.eqb_refl.
Qed.

Lemma tunnel_scp w user h src :
  emits_only (through_tunnel user h)
    (subprocess_check_call w ["scp"; src; user ++ "@" ++ h ++ ":"]).
Proof.
  unfold subprocess_check_call, subprocess_call_.
  apply emits_only_bind; [|intros; emits_only_tac].
  apply emits_only_bind; [|intros; emits_only_tac].
  apply emits_only_emit. cbn. apply String.eqb_refl.
Qed.

Lemma local_check_call w user cmd rest :
  emits_only run_locally (check_call w ("hadoop" :: cmd :: rest) None user).
Proof.
  unfold check_call, subprocess_check_call, subprocess_call_. emits_only_tac.
Qed.

Lemma local_call w user cmd rest :
  emits_only run_locally (call w ("hadoop" :: cmd :: rest) None user).
Proof. unfold call, subprocess_call_. emits_only_tac. Qed.

(** X11. Where the copy runs its commands.  With a tunnel host every
    sub-process of the copy is an scp to user@host or an ssh on
    user@host; without one every sub-process is a hadoop command run
    on this machine, and there is no scp and no ssh. *)
Theorem copy_goes_through_the_tunnel (w : World) (user h src dst : string)
  (s : MesosCLI) :
  forallb (through_tunnel user h)
    (emitted (copy_to_hadoop w user (Some h) src dst s)) = true /\
  forallb run_locally
    (emitted (copy_to_hadoop w user None src dst s)) = true.
Proof.
  split.
  - revert s.
    change (emits_only (through_tunnel user h)
              (copy_to_hadoop w user (Some h) src dst)).
    unfold copy_to_hadoop, Location_is_prod.
    pose proof (tunnel_check_call w user h).
    pose proof (tunnel_call w user h).
    pose proof (tunnel_scp w user h).
    repeat (first [ solve [auto] | emits_only_step ]).
  - revert s.
    change (emits_only run_locally (copy_to_hadoop w user None src dst)).
    unfold copy_to_hadoop, Location_is_prod.
    pose proof (local_check_call w user).
    pose proof (local_call w user).
    repeat (first [ solve [auto] | emits_only_step ]).
Qed.

(** X12. A copy that returns has run the put last, and the put exited
    with 0: hadoop fs -put of the source (the expanded path in
    production, its base name elsewhere) to the target, through ssh when
    there is a tunnel host. *)
Theorem copy_ends_with_put (w : World) (user src dst : string)
  (host : option string) (s : MesosCLI) :
  let r := copy_to_hadoop w user host src dst s in
  let hdfs_src := if is_prod w then expanduser w src
                  else basename w (expanduser w src) in
  let put := match host with
             | Some h => ssh_argv ["hadoop"; "fs"; "-put"; hdfs_src; dst] h user
             | None => ["hadoop"; "fs"; "-put"; hdfs_src; dst]
             end in
  returns r = true ->
  last (emitted r) LocationProbe = Subprocess put /\
  subprocess_call w put = 0.
Proof.
  intros r hdfs_src put. subst r put hdfs_src.
  unfold copy_to_hadoop, returns, bind, Location_is_prod, call, check_call,
    subprocess_check_call, subprocess_call_, bind, assert, log.
  cbn.
  destruct (path_exists w (expanduser w src)); cbn; [|discriminate].
  destruct host as [[|a h]|]; cbn;
    repeat match goal with
           | |- context [if ?b =? 0 then _ else _] =>
               destruct (b =? 0) eqn:?E; cbn
           end;
    intros H; try discriminate H;
    (split; [reflexivity | apply Z.eqb_eq; assumption]).
Qed.

Lemma copy_ends_with_put_witness :
  let w := demo_world OK [] in
  let r := copy_to_hadoop w "eng" (Some "tunnel1") "hello.zip" "/apps/hello.zip"
             (init (demo_options "smf1")) in
  let put := ssh_argv ["hadoop"; "fs"; "-put"; "hello.zip"; "/apps/hello.zip"]
               "tunnel1" "eng" in
  last (emitted r) LocationProbe = Subprocess put /\
  subprocess_call w put = 0.
Proof.
  apply (copy_ends_with_put (demo_world OK []) "eng" "hello.zip"
           "/apps/hello.zip" (Some "tunnel1") (init (demo_options "smf1"))).
  reflexivity.
Defined.

(** ** The handlers *)

Lemma resolution_assert_exists w n : emits_only is_resolution (assert_exists w n).
Proof. unfold assert_exists. emits_only_tac. Qed.
#[local] Hint Resolve resolution_assert_exists : runs.

Lemma resolution_assert_valid_cluster w c :
  emits_only is_resolution (assert_valid_cluster w c).
Proof. unfold assert_valid_cluster. emits_only_tac. Qed.
#[local] Hint Resolve resolution_assert_valid_cluster : runs.

Lemma resolution_get_cluster w a b : emits_only is_resolution (get_cluster w a b).
Proof. unfold get_cluster. emits_only_tac. Qed.
#[local] Hint Resolve resolution_get_cluster : runs.

Lemma resolution_get_scheduler_client w c v :
  emits_only is_resolution (get_scheduler_client w c v).
Proof.
  unfold get_scheduler_client, Location_is_prod, Location_is_corp,
    TunnelHelper_get_tunnel_host.
  emits_only_tac.
Qed.
#[local] Hint Resolve resolution_get_scheduler_client : runs.

Lemma resolution_construct_scheduler w cfg :
  emits_only is_resolution (_construct_scheduler w cfg).
Proof. unfold _construct_scheduler. emits_only_tac. Qed.
#[local] Hint Resolve resolution_construct_scheduler : runs.

Lemma resolution_client w : emits_only is_resolution (client w).
Proof. unfold client. emits_only_tac. Qed.

Lemma resolution_proxy w : emits_only is_resolution (proxy w).
Proof. unfold proxy. emits_only_tac. Qed.

Lemma resolution_cluster w : emits_only is_resolution (cluster w).
Proof. unfold cluster. emits_only_tac. Qed.

Lemma resolution_config : emits_only is_resolution config.
Proof. unfold config. emits_only_tac. Qed.

Lemma resolution_get_and_set_config w j c :
  emits_only is_resolution (get_and_set_config w j c).
Proof. unfold get_and_set_config. emits_only_tac. Qed.
#[local] Hint Resolve resolution_client resolution_proxy resolution_cluster
  resolution_config resolution_get_and_set_config : runs.

Lemma dry_run_of_resolution {A} (m : M A) :
  emits_only is_resolution m -> emits_only dry_run m.
Proof.
  apply emits_only_weaken. intros e H. unfold dry_run. rewrite H. reflexivity.
Qed.
#[local] Hint Resolve dry_run_of_resolution : runs.

Lemma dry_run_acquire_session w : emits_only dry_run (acquire_session w).
Proof.
  unfold acquire_session, acquire_session_key_or_die. emits_only_tac.
Qed.
#[local] Hint Resolve dry_run_acquire_session : runs.

(** X13. inspect is a dry run: whatever the line and the options, it
    makes no call to the scheduler or the updater and runs no
    sub-process; it only loads the configuration, may resolve the
    cluster, has a key signed and logs. *)
Theorem inspect_is_a_dry_run (w : World) (line : string) (s : MesosCLI) :
  let r := do_inspect w line s in
  calls (emitted r) = [] /\
  existsb is_subprocess (emitted r) = false /\
  forallb dry_run (emitted r) = true.
Proof.
  intros r. subst r.
  assert (emits_only dry_run (do_inspect w line)) as H.
  { unfold do_inspect, requires_arguments, do_inspect_fn. emits_only_tac. }
  specialize (H s). repeat split; [| |exact H].
  - apply (filter_none dry_run); [|exact H].
    intros e. destruct e as [l m| | | | | | | | | |]; try reflexivity; discriminate.
  - apply existsb_none. rewrite forallb_forall in *. intros e He.
    specialize (H e He). destruct e; try reflexivity; discriminate H.
Qed.

(** The tail the authenticated single-call handlers share: resolve the
    client, have a key signed, make the call, validate the response. *)
Lemma authenticated_call_run w (req : SessionKey -> Request) s :
  let r := (oc <- client w ;; c <- attr oc ;; key <- acquire_session w ;;
            resp <- rpc w c (req key) ;; check_and_log_response resp) s in
  (calls (emitted r) = [] /\ returns r = false) \/
  exists c key,
    user key = getuser w /\
    calls (emitted r) = [Rpc c (req key)] /\
    outcome r = match responseCode (scheduler_rpc w c (req key)) with
                | OK => Return tt
                | Failure _ => Raise (SystemExit 1)
                end /\
    signings_and_calls (emitted r) =
      [SignSession key (getuser w); Rpc c (req key)].
Proof.
  intros r. subst r. unfold bind, returns.
  pose proof (plumbing_client w s) as H1.
  destruct (client w s) as [[[c|]|e] s1 t1]; cbn [emitted] in H1; cbn;
    try (left; calls_simpl; auto; fail).
  right.
  unfold acquire_session, acquire_session_key_or_die, rpc,
    check_and_log_response. cbn.
  exists c, {| user := getuser w; signature := signed s1 |}.
  destruct (responseCode (scheduler_rpc w c
              (req {| user := getuser w; signature := signed s1 |})));
    cbn; calls_simpl; signings_simpl; auto.
Qed.

Lemma requires_arguments_run expected fn line s :
  requires_arguments expected fn line s =
  if (length (PyStr.split_ws line) =? length expected)%nat
  then fn (PyStr.split_ws line) s
  else {| outcome := Raise (SystemExit 1); final := s;
          emitted := [Log FATAL (MsgExpectedArgs (length expected)
                                   (length (PyStr.split_ws line)) line)] |}.
Proof.
  unfold requires_arguments, bind.
  destruct (length (PyStr.split_ws line) =? length expected)%nat; cbn;
    [|reflexivity].
  destruct (fn (PyStr.split_ws line) s). reflexivity.
Qed.

Lemma log_then_run {A} l m (k : M A) s :
  (log l m ;; k) s =
  {| outcome := outcome (k s); final := final (k s);
     emitted := Log l m :: emitted (k s) |}.
Proof. unfold bind. cbn. destruct (k s). reflexivity. Qed.

(** X14. kill, start_cron and cancel_update each make at most one call
    to the scheduler: none when the handler fails before it (then it
    does not return), or exactly the call for the role and job of the
    command line, with a key signed for the current user: the signings
    and calls of the run are one signing, for the current user, and
    then the one call, which carries the key that was signed.  The
    handler then returns on an OK response and exits with 1 on any
    other.  The call of cancel_update is finishUpdate with TERMINATE and
    no token. *)
Theorem one_authenticated_call (w : World) (line : string) (s : MesosCLI) :
  let single (r : Run unit) (req : string -> string -> SessionKey -> Request) :=
    (calls (emitted r) = [] /\ returns r = false) \/
    exists role job c key,
      PyStr.split_ws line = [role; job] /\
      user key = getuser w /\
      calls (emitted r) = [Rpc c (req role job key)] /\
      outcome r = match responseCode (scheduler_rpc w c (req role job key)) with
                  | OK => Return tt
                  | Failure _ => Raise (SystemExit 1)
                  end /\
      signings_and_calls (emitted r) =
        [SignSession key (getuser w); Rpc c (req role job key)] in
  single (do_kill w line s) (fun role job => killTasks (make_query role job)) /\
  single (do_start_cron w line s) startCronJob /\
  single (do_cancel_update w line s)
    (fun role job => finishUpdate role job TERMINATE None).
Proof.
  intros single. subst single. cbv beta.
  unfold do_kill, do_start_cron, do_cancel_update.
  rewrite !requires_arguments_run.
  destruct (PyStr.split_ws line) as [|role [|job [|? ?]]]; cbn [length Nat.eqb];
    try (repeat split; left; split; reflexivity).
  unfold do_kill_fn, do_start_cron_fn, do_cancel_update_fn.
  rewrite !log_then_run. unfold returns. cbn [outcome final emitted].
  rewrite !calls_cons, !signings_and_calls_cons. cbn [is_call is_sign orb].
  repeat match goal with |- _ /\ _ => split end.
  - destruct (authenticated_call_run w (killTasks (make_query role job)) s)
      as [H|(c & key & H)]; [left; exact H|].
    right. exists role, job, c, key. auto.
  - destruct (authenticated_call_run w (startCronJob role job) s)
      as [H|(c & key & H)]; [left; exact H|].
    right. exists role, job, c, key. auto.
  - destruct (authenticated_call_run w (finishUpdate role job TERMINATE None) s)
      as [H|(c & key & H)]; [left; exact H|].
    right. exists role, job, c, key. auto.
Qed.




(** X17. A status query the scheduler refuses prints no task: after the
    validator line the handler exits with 1, with neither header, task
    line nor no-tasks message, whatever tasks the response holds. *)
Theorem status_refused_prints_nothing (w : World) (role job kind : string)
  (s s1 : MesosCLI) (c : Client) (t : list event) :
  let resp := scheduler_rpc w c (getTasksStatus (make_query role job)) in
  client w s = {| outcome := Return (Some c); final := s1; emitted := t |} ->
  responseCode resp = Failure kind ->
  do_status_fn w [role; job] s =
  {| outcome := Raise (SystemExit 1);
     final := s1;
     emitted := (Log INFO MsgFetching :: t ++
                 [Rpc c (getTasksStatus (make_query role job));
                  Log INFO (MsgResponse kind (message resp))])%list |}.
Proof.
  intros resp Hc Hbad.
  unfold do_status_fn, bind. cbn. rewrite Hc. cbn.
  unfold rpc, check_and_log_response. cbn. fold resp. rewrite Hbad. reflexivity.
Qed.

Lemma status_refused_witness :
  let w := demo_world (Failure "ERROR") [] in
  let s := init (demo_options "localhost:1234") in
  let c := {| client_of := LocalSchedulerClient 1234 true |} in
  let resp := scheduler_rpc w c (getTasksStatus (make_query "eng" "hello")) in
  do_status_fn w ["eng"; "hello"] s =
  {| outcome := Raise (SystemExit 1);
     final := final (client w s);
     emitted := (Log INFO MsgFetching :: emitted (client w s) ++
                 [Rpc c (getTasksStatus (make_query "eng" "hello"));
                  Log INFO (MsgResponse "ERROR" (message resp))])%list |}.
Proof.
  apply (status_refused_prints_nothing (demo_world (Failure "ERROR") [])
           "eng" "hello" "ERROR" (init (demo_options "localhost:1234"))
           (final (client (demo_world (Failure "ERROR") [])
                     (init (demo_options "localhost:1234"))))
           {| client_of := LocalSchedulerClient 1234 true |}
           (emitted (client (demo_world (Failure "ERROR") [])
                       (init (demo_options "localhost:1234"))))).
  - reflexivity.
  - reflexivity.
Defined.

Lemma do_update_fn_run w line s :
  let r := do_update_fn w line s in
  (calls (emitted r) = [] /\ returns r = false) \/
  exists c job key,
    let resp := scheduler_rpc w c (startUpdate job key) in
    let failed_shards :=
      updater_update w (role (owner job)) (name job) (Some c)
        (updateToken resp) key job in
    let finish := finishUpdate (role (owner job)) (name job)
                    match failed_shards with
                    | [] => SUCCESS
                    | _ :: _ => FAILED
                    end
                    (updateToken resp) key in
    calls (emitted r) = update_calls w c job key /\
    outcome r = match responseCode resp with
                | Failure _ => Raise (SystemExit 1)
                | OK => match responseCode (scheduler_rpc w c finish) with
                        | OK => Return tt
                        | Failure _ => Raise (SystemExit 1)
                        end
                end.
Proof.
  intros r. subst r. unfold do_update_fn, returns.
  destruct line as [|a [|b [|? ?]]]; try (left; split; reflexivity).
  unfold bind.
  pose proof (plumbing_get_and_set_config w a b s) as H1.
  destruct (get_and_set_config w a b s) as [[job|e] s1 t1];
    cbn [emitted] in H1; [|left; calls_simpl; auto].
  pose proof (plumbing_copy_app w job s1) as H2.
  destruct (copy_app w job s1) as [[[]|e] s2 t2];
    cbn [emitted] in H2; [|left; calls_simpl; auto].
  unfold acquire_session, acquire_session_key_or_die. cbn.
  set (key := {| user := getuser w; signature := signed s2 |}).
  pose proof (plumbing_client w (set_signed (S (signed s2)) s2)) as H3.
  destruct (client w (set_signed (S (signed s2)) s2)) as [[oc|e] s3 t3] eqn:Ec;
    cbn [emitted] in H3; [|left; calls_simpl; auto].
  apply client_run in Ec.
  destruct oc as [c|]; cbn; [|left; calls_simpl; auto].
  right. exists c, job, key.
  unfold rpc, check_and_log_response, Updater_update, update_calls. cbn.
  destruct (responseCode (scheduler_rpc w c (startUpdate job key))) eqn:Er; cbn.
  - rewrite (client_cached w s3 c Ec). cbn.
    destruct (updater_update w (role (owner job)) (name job) (Some c)
                (updateToken (scheduler_rpc w c (startUpdate job key))) key job);
      cbn; rewrite (client_cached w s3 c Ec); cbn;
      match goal with
      | |- context [responseCode ?r] => destruct (responseCode r)
      end; cbn; calls_simpl; auto.
  - calls_simpl. auto.
Qed.

(** X18. Whether an update ends well depends on the two answers of the
    scheduler alone.  A run that reaches start-update exits with 1 when
    that call is refused, and otherwise returns exactly when
    finish-update is answered OK: shards the updater reports as failed
    turn the outcome argument into FAILED but are not themselves
    fatal.  A run that does not reach start-update makes no call and
    does not return. *)
Theorem update_exit_depends_on_responses (w : World) (line : string)
  (s : MesosCLI) :
  let r := do_update w line s in
  (calls (emitted r) = [] /\ returns r = false) \/
  exists c job key,
    let resp := scheduler_rpc w c (startUpdate job key) in
    let failed_shards :=
      updater_update w (role (owner job)) (name job) (Some c)
        (updateToken resp) key job in
    let finish := finishUpdate (role (owner job)) (name job)
                    match failed_shards with
                    | [] => SUCCESS
                    | _ :: _ => FAILED
                    end
                    (updateToken resp) key in
    calls (emitted r) = update_calls w c job key /\
    outcome r = match responseCode resp with
                | Failure _ => Raise (SystemExit 1)
                | OK => match responseCode (scheduler_rpc w c finish) with
                        | OK => Return tt
                        | Failure _ => Raise (SystemExit 1)
                        end
                end.
Proof.
  intros r. subst r. unfold do_update. rewrite requires_arguments_run.
  destruct (length (PyStr.split_ws line) =? length ["job"; "config"])%nat;
    [apply do_update_fn_run | left; split; reflexivity].
Qed.

(** The run with a failed shard and both answers OK returns. *)
Example update_with_failed_shard_returns :
  let r := main (demo_world OK [3]) ["update"; "hello"; "hello.mesos"]
             (demo_options "localhost:1234") in
  outcome r = Return tt /\ exit_status r = 0 /\
  In (Log INFO (MsgUpdateReverted [3])) (emitted r).
Proof.
  repeat split; try reflexivity.
  vm_compute. repeat (first [left; reflexivity | right]).
Qed.

(** ** main *)

(** X19. No AssertionError leaves main: when the handler raises one,
    main logs it at FATAL level after everything the handler emitted
    and exits with status 1; every other way the handler ends is passed
    on unchanged. *)
Theorem main_turns_assertions_into_exit (w : World) (a : string)
  (args : list string) (s : MesosCLI) :
  let h := onecmd w (PyStr.join " " (a :: args)) s in
  let r := main_body w (a :: args) s in
  is_assertion (outcome r) = false /\
  final r = final h /\
  match outcome h with
  | Raise (AssertionError text) =>
      outcome r = Raise (SystemExit 1) /\
      emitted r = (emitted h ++ [Log FATAL (MsgDie text)])%list /\
      exit_status r = 1
  | _ => outcome r = outcome h /\ emitted r = emitted h
  end.
Proof.
  intros h r. subst h r. unfold main_body, exit_status, bind, attempt.
  destruct (onecmd w (PyStr.join " " (a :: args)) s) as [[[]|e] s1 t1]; cbn;
    [rewrite app_nil_r; auto|].
  destruct e; cbn; rewrite ?app_nil_r; auto.
Qed.

(** ** Printing tasks *)

Lemma print_tasks_stops_at_missing_info_aux (ts : list ScheduledTask)
  (s : MesosCLI) :
  print_tasks ts s =
  {| outcome := if forallb has_info ts then Return tt else Raise AttributeError;
     final := s;
     emitted := flat_map task_line (printable ts) |}.
Proof.
  induction ts as [|t ts IH]; [reflexivity|].
  cbn [print_tasks forallb printable]. unfold bind, print_task, has_info, task_line.
  destruct (task (assignedTask t)) as [ti|] eqn:Et; cbn; [|reflexivity].
  rewrite IH. unfold task_line at 1. rewrite Et. reflexivity.
Qed.

(** X20. print_tasks on any list: it logs one line for each task up to
    the first one without task information, leaves the object alone,
    and returns when every task has its information and stops with
    AttributeError otherwise. *)
Theorem print_tasks_stops_at_missing_info (ts : list ScheduledTask)
  (s : MesosCLI) :
  print_tasks ts s =
  {| outcome := if forallb has_info ts then Return tt else Raise AttributeError;
     final := s;
     emitted := flat_map task_line (printable ts) |}.
Proof. exact (print_tasks_stops_at_missing_info_aux ts s). Qed.

(** X21. get_quota, once the client is resolved, makes exactly one call,
    getQuota for the role, with no key signed; it logs the quota and
    returns when the response carries one and stops with AttributeError
    when it carries none, whatever the response code. *)
Theorem get_quota_run (w : World) (role : string) (s s1 : MesosCLI)
  (c : Client) (t : list event) :
  client w s = {| outcome := Return (Some c); final := s1; emitted := t |} ->
  do_get_quota_fn w [role] s =
  {| outcome := match quota (scheduler_rpc w c (getQuota role)) with
                | Some _ => Return tt
                | None => Raise AttributeError
                end;
     final := s1;
     emitted := (t ++ Rpc c (getQuota role) ::
                 match quota (scheduler_rpc w c (getQuota role)) with
                 | Some q => [Log INFO (MsgQuota role q)]
                 | None => []
                 end)%list |}.
Proof.
  intros Hc. unfold do_get_quota_fn, bind. cbn. rewrite Hc. cbn.
  unfold rpc. cbn.
  destruct (quota (scheduler_rpc w c (getQuota role))); reflexivity.
Qed.

(** X22. The status handler on any answered query: after an OK response
    the handler logs the no-tasks message for an empty list; otherwise
    the ACTIVE header and the lines of the active tasks up to the first
    one without task information, then, when there was none, the
    INACTIVE header and the lines of the inactive tasks up to the first
    one without task information.  It returns when every task has its
    information and stops with AttributeError otherwise. *)
Theorem status_report_on_any_tasks (w : World) (role job : string)
  (s s1 : MesosCLI) (c : Client) (t : list event) :
  let resp := scheduler_rpc w c (getTasksStatus (make_query role job)) in
  let active := filter is_active (tasks resp) in
  let inactive := filter (fun x => negb (is_active x)) (tasks resp) in
  client w s = {| outcome := Return (Some c); final := s1; emitted := t |} ->
  responseCode resp = OK ->
  do_status_fn w [role; job] s =
  {| outcome := if forallb has_info active && forallb has_info inactive
                then Return tt else Raise AttributeError;
     final := s1;
     emitted := (Log INFO MsgFetching :: t ++
                 Rpc c (getTasksStatus (make_query role job)) ::
                 Log INFO (MsgResponse "OK" (message resp)) ::
                 match tasks resp with
                 | [] => [Log INFO MsgNoTasks]
                 | _ :: _ =>
                     Log INFO (MsgActiveTasks (length active)) ::
                     flat_map task_line (printable active) ++
                     (if forallb has_info active
                      then Log INFO (MsgInactiveTasks (length inactive)) ::
                           flat_map task_line (printable inactive)
                      else [])
                 end)%list |}.
Proof.
  intros resp active inactive Hc Hok.
  unfold do_status_fn, bind. cbn. rewrite Hc. cbn.
  unfold rpc, check_and_log_response. cbn. fold resp. rewrite Hok. cbn.
  subst active inactive.
  destruct (tasks resp) as [|t0 ts] eqn:Et; [reflexivity|].
  rewrite !print_tasks_stops_at_missing_info_aux.
  destruct (forallb has_info (filter is_active (t0 :: ts))); cbn;
    [destruct (forallb has_info (filter (fun x => negb (is_active x)) (t0 :: ts)))|];
    cbn; rewrite ?app_nil_r; reflexivity.
Qed.

Lemma get_quota_run_witness :
  let w := refusing_world in
  let s := init (demo_options "localhost:1234") in
  let c := {| client_of := LocalSchedulerClient 1234 true |} in
  do_get_quota_fn w ["eng"] s =
  {| outcome := match quota (scheduler_rpc w c (getQuota "eng")) with
                | Some _ => Return tt
                | None => Raise AttributeError
                end;
     final := final (client w s);
     emitted := (emitted (client w s) ++ Rpc c (getQuota "eng") ::
                 match quota (scheduler_rpc w c (getQuota "eng")) with
                 | Some q => [Log INFO (MsgQuota "eng" q)]
                 | None => []
                 end)%list |}.
Proof.
  apply (get_quota_run refusing_world "eng"
           (init (demo_options "localhost:1234"))
           (final (client refusing_world (init (demo_options "localhost:1234"))))
           {| client_of := LocalSchedulerClient 1234 true |}
           (emitted (client refusing_world (init (demo_options "localhost:1234"))))).
  reflexivity.
Defined.

Lemma status_report_on_any_tasks_witness :
  let w := demo_world OK [] in
  let s := init (demo_options "localhost:1234") in
  let c := {| client_of := LocalSchedulerClient 1234 true |} in
  let resp := scheduler_rpc w c (getTasksStatus (make_query "eng" "hello")) in
  let active := filter is_active (tasks resp) in
  let inactive := filter (fun x => negb (is_active x)) (tasks resp) in
  do_status_fn w ["eng"; "hello"] s =
  {| outcome := if forallb has_info active && forallb has_info inactive
                then Return tt else Raise AttributeError;
     final := final (client w s);
     emitted := (Log INFO MsgFetching :: emitted (client w s) ++
                 Rpc c (getTasksStatus (make_query "eng" "hello")) ::
                 Log INFO (MsgResponse "OK" (message resp)) ::
                 match tasks resp with
                 | [] => [Log INFO MsgNoTasks]
                 | _ :: _ =>
                     Log INFO (MsgActiveTasks (length active)) ::
                     flat_map task_line (printable active) ++
                     (if forallb has_info active
                      then Log INFO (MsgInactiveTasks (length inactive)) ::
                           flat_map task_line (printable inactive)
                      else [])
                 end)%list |}.
Proof.
  apply (status_report_on_any_tasks (demo_world OK []) "eng" "hello"
           (init (demo_options "localhost:1234"))
           (final (client (demo_world OK []) (init (demo_options "localhost:1234"))))
           {| client_of := LocalSchedulerClient 1234 true |}
           (emitted (client (demo_world OK []) (init (demo_options "localhost:1234"))))).
  - reflexivity.
  - reflexivity.
Defined.

(** ** Validation and routing together *)

(** X23. Every cluster string the validator accepts that has at most two
    segments can be routed: get_scheduler_client returns for it. *)
Theorem valid_clusters_route (w : World) (c : string) (verbose : bool)
  (s : MesosCLI) :
  valid_cluster w (Some c) = true ->
  (length (PyStr.split ":" c) <= 2)%nat ->
  returns (get_scheduler_client w (Some c) verbose s) = true.
Proof.
  intros Hv Hlen. unfold valid_cluster in Hv.
  apply andb_true_iff in Hv as [_ Hv]. unfold returns.
  route_cases w c; try reflexivity; exfalso;
    try (apply Z.eqb_eq, localhost_has_colon, find_true_split in Hlocal);
    try (apply find_true_split in Hcolon);
    rewrite Hsplit in *; cbn in *; try lia;
    repeat match goal with
           | H : context [match ?r with [] => _ | _ :: _ => _ end] |- _ =>
               destruct r; cbn in *; try lia
           end;
    rewrite Hint in Hv; rewrite andb_false_r in Hv; discriminate.
Qed.

Lemma valid_clusters_route_witness :
  returns (get_scheduler_client (demo_world OK []) (Some "smf1:2181") false
             (init (demo_options "smf1:2181"))) = true.
Proof.
  apply (valid_clusters_route (demo_world OK []) "smf1:2181" false
           (init (demo_options "smf1:2181"))).
  - reflexivity.
  - vm_compute. lia.
Defined.

(** ** Copying only on request *)

Lemma emitted_bind {A B} (m : M A) (f : A -> M B) s :
  emitted (bind m f s) =
  (emitted (m s) ++ match outcome (m s) with
                    | Return a => emitted (f a (final (m s)))
                    | Raise _ => []
                    end)%list.
Proof.
  unfold bind. destruct (m s) as [[a|e] s1 t1]; cbn.
  - destruct (f a s1). reflexivity.
  - rewrite app_nil_r. reflexivity.
Qed.

Lemma get_and_set_config_options w j p s :
  options (final (get_and_set_config w j p s)) = options s.
Proof.
  unfold get_and_set_config, bind. cbn.
  destruct (if PyStr.endswith p ".thermos" then from_thermos w p j
            else from_mesos w p j); reflexivity.
Qed.

Lemma copy_app_without_flag w job s :
  copy_app_from (options s) = None ->
  copy_app w job s = {| outcome := Return tt; final := s; emitted := [] |}.
Proof. intros H. unfold copy_app, bind. cbn. rewrite H. reflexivity. Qed.

Lemma no_subprocess_of_resolution {A} (m : M A) :
  emits_only is_resolution m -> emits_only no_subprocess m.
Proof.
  apply emits_only_weaken. intros e H. unfold is_resolution in H.
  apply andb_true_iff in H as [_ H]. exact H.
Qed.
#[local] Hint Resolve no_subprocess_of_resolution : runs.

Lemma no_subprocess_acquire_session w : emits_only no_subprocess (acquire_session w).
Proof.
  unfold acquire_session, acquire_session_key_or_die. emits_only_tac.
Qed.

Lemma no_subprocess_rpc w c r : emits_only no_subprocess (rpc w c r).
Proof. unfold rpc. emits_only_tac. Qed.

Lemma no_subprocess_check resp :
  emits_only no_subprocess (check_and_log_response resp).
Proof. unfold check_and_log_response. emits_only_tac. Qed.

Lemma no_subprocess_Updater_update w r j c t k job :
  emits_only no_subprocess (Updater_update w r j c t k job).
Proof. unfold Updater_update. emits_only_tac. Qed.
#[local] Hint Resolve no_subprocess_acquire_session no_subprocess_rpc
  no_subprocess_check no_subprocess_Updater_update : runs.

(** X24. Without --copy_app_from, create and update run no sub-process
    at all: nothing is copied, over a tunnel or otherwise. *)
Theorem no_copy_unless_requested (w : World) (line : string) (s : MesosCLI) :
  copy_app_from (options s) = None ->
  existsb is_subprocess (emitted (do_create w line s)) = false /\
  existsb is_subprocess (emitted (do_update w line s)) = false.
Proof.
  intros Hflag.
  assert (forall (rest : JobConfiguration -> M unit) a b,
             (forall job, emits_only no_subprocess (rest job)) ->
             forallb no_subprocess
               (emitted ((job <- get_and_set_config w a b ;;
                          copy_app w job ;; rest job) s)) = true) as Hgen.
  { intros rest a b Hrest. rewrite emitted_bind, forallb_app.
    rewrite (no_subprocess_of_resolution _
               (resolution_get_and_set_config w a b) s).
    pose proof (get_and_set_config_options w a b s) as Ho.
    destruct (get_and_set_config w a b s) as [[job|e] s1 t1]; cbn in *;
      [|reflexivity].
    rewrite emitted_bind, copy_app_without_flag by congruence. cbn.
    apply Hrest. }
  unfold do_create, do_update. rewrite !requires_arguments_run.
  destruct (PyStr.split_ws line) as [|a [|b [|? ?]]]; cbn [length Nat.eqb];
    try (split; reflexivity).
  split; apply existsb_none.
  - unfold do_create_fn.
    apply (Hgen (fun job => _)). intros job. emits_only_tac.
  - unfold do_update_fn.
    apply (Hgen (fun job => _)). intros job. emits_only_tac.
Qed.

Lemma no_copy_unless_requested_witness :
  existsb is_subprocess
    (emitted (do_create (demo_world OK []) "hello hello.mesos"
                (init (demo_options "smf1")))) = false /\
  existsb is_subprocess
    (emitted (do_update (demo_world OK []) "hello hello.mesos"
                (init (demo_options "smf1")))) = false.
Proof.
  apply (no_copy_unless_requested (demo_world OK []) "hello hello.mesos"
           (init (demo_options "smf1"))).
  reflexivity.
Defined.
